(** * sudoku.py: the board loader and the game object

    A shallow embedding of [SudokuBoard], [SudokuGame] and the key handler of
    [SudokuUI] from [sudoku_py/sudoku.py] (Python 2), and the properties of
    the loader, of [start] and of [check_win].

    Python lists are mutable objects, so they live in a store and values
    refer to them by location; exceptions are results, and the store a
    statement has changed before it raises stays changed. *)

From Stdlib Require Import ZArith Ascii String List Lia.
From stdpp Require Import base list gmap strings.
Import ListNotations.
Open Scope Z_scope.

(** ** Values, exceptions and the store *)

(** A Python 2 [str] is a sequence of bytes. *)
Abbreviation str := (list ascii).

Abbreviation loc := nat.

(** The values the board code handles: integers and references to lists. *)
Inductive val : Type :=
| VInt (n : Z)
| VList (l : loc).

Inductive exn : Type :=
| SudokuError (msg : string)
| AttributeError (name : string)
| NameError (name : string)
| IndexError
| TypeError
| ValueError
| StoreError. (* a location outside the store: no Python program reaches it *)

Inductive result (A : Type) : Type :=
| Ok (a : A)
| Raise (e : exn).
Arguments Ok {A} a.
Arguments Raise {A} e.

(** The store: the list object at location [l] is the [l]-th entry. A new
    list is put at the end, so its location is the length of the store. *)
Abbreviation Heap := (list (list val)).

(** ** Computations: a state and exception monad *)

Definition M (S A : Type) : Type := S -> result A * S.

Definition ret {S A} (a : A) : M S A := fun s => (Ok a, s).

Definition raise {S A} (e : exn) : M S A := fun s => (Raise e, s).

Definition bind {S A B} (m : M S A) (k : A -> M S B) : M S B :=
  fun s =>
    match m s with
    | (Ok a, s') => k a s'
    | (Raise e, s') => (Raise e, s')
    end.

Notation "x <- c ;; k" := (bind c (fun x => k))
  (at level 100, c at next level, right associativity).
Notation "c ;;; k" := (bind c (fun _ => k))
  (at level 100, right associativity).

Definition lift {S A} (r : result A) : M S A := fun s => (r, s).

(** [for x in xs: body] *)
Fixpoint for_ {S X} (xs : list X) (body : X -> M S unit) : M S unit :=
  match xs with
  | [] => ret tt
  | x :: xs' => body x ;;; for_ xs' body
  end.

(** [for x in xs: body] where [body] may [return]: [Some v] is the value
    returned from inside the loop, [None] is falling out of it. *)
Fixpoint for_return {S X R} (xs : list X) (body : X -> M S (option R))
  : M S (option R) :=
  match xs with
  | [] => ret None
  | x :: xs' =>
      r <- body x ;;
      match r with
      | Some v => ret (Some v)
      | None => for_return xs' body
      end
  end.

(** [xrange(n)] and [xrange(a, b)] *)
Definition xrange (n : Z) : list Z := seqZ 0 n.
Definition xrange2 (a b : Z) : list Z := seqZ a (b - a).

(** ** List objects *)

(** [[]] *)
Definition new_list : M Heap loc :=
  fun h => (Ok (length h), h ++ [[]]).

Definition read (l : loc) : M Heap (list val) :=
  fun h =>
    match h !! l with
    | Some xs => (Ok xs, h)
    | None => (Raise StoreError, h)
    end.

(** [l.append(v)] *)
Definition append (l : loc) (v : val) : M Heap unit :=
  fun h =>
    match h !! l with
    | Some xs => (Ok tt, <[l := xs ++ [v]]> h)
    | None => (Raise StoreError, h)
    end.

(** [len(l)] *)
Definition len (l : loc) : M Heap Z :=
  xs <- read l ;; ret (Z.of_nat (length xs)).

(** The position an index denotes in a list of length [n]: a negative index
    counts from the end; outside [-n, n) there is none. *)
Definition index (n : nat) (i : Z) : option nat :=
  let k := if i <? 0 then i + Z.of_nat n else i in
  if (0 <=? k) && (k <? Z.of_nat n) then Some (Z.to_nat k) else None.

(** [l[i]] *)
Definition getitem (l : loc) (i : Z) : M Heap val :=
  xs <- read l ;;
  match index (length xs) i with
  | Some k =>
      match xs !! k with
      | Some v => ret v
      | None => raise IndexError
      end
  | None => raise IndexError
  end.

(** [l[i] = v] *)
Definition setitem (l : loc) (i : Z) (v : val) : M Heap unit :=
  fun h =>
    match h !! l with
    | Some xs =>
        match index (length xs) i with
        | Some k => (Ok tt, <[l := <[k := v]> xs]> h)
        | None => (Raise IndexError, h)
        end
    | None => (Raise StoreError, h)
    end.

(** A value that is indexed or iterated ([v[i]], [set(v)]): an [int] cannot
    be. *)
Definition as_list {S} (v : val) : M S loc :=
  match v with
  | VList l => ret l
  | VInt _ => raise TypeError
  end.

(** [v.append]: only a list has the method. *)
Definition append_of {S} (v : val) : M S loc :=
  match v with
  | VList l => ret l
  | VInt _ => raise (AttributeError "append")
  end.

(** ** Strings *)

(** [isspace] of the C locale: space, [\t], [\n], [\v], [\f], [\r]. *)
Definition isspace (c : ascii) : bool :=
  let n := nat_of_ascii c in
  ((9 <=? n) && (n <=? 13) || (n =? 32))%nat.

(** [c.isdigit()] for one byte *)
Definition isdigit (c : ascii) : bool :=
  let n := nat_of_ascii c in
  ((48 <=? n) && (n <=? 57))%nat.

Fixpoint lstrip (s : str) : str :=
  match s with
  | [] => []
  | c :: s' => if isspace c then lstrip s' else s
  end.

Definition rstrip (s : str) : str := rev (lstrip (rev s)).

(** [s.strip()] *)
Definition strip (s : str) : str := rstrip (lstrip s).

Definition digit_value (c : ascii) : Z := Z.of_nat (nat_of_ascii c) - 48.

(** [int(s)] on the strings this program passes to it: a string of decimal
    digits is its value; the empty string and a string with another
    character raise [ValueError]. (Python also takes a sign and surrounding
    blanks; every call here is behind a digits-only test.) *)
Definition int (s : str) : result Z :=
  match s with
  | [] => Raise ValueError
  | _ =>
      if forallb isdigit s
      then Ok (fold_left (fun acc c => 10 * acc + digit_value c) s 0)
      else Raise ValueError
  end.

Fixpoint startswith (s prefix : str) : bool :=
  match prefix, s with
  | [], _ => true
  | p :: prefix', c :: s' => Ascii.eqb p c && startswith s' prefix'
  | _ :: _, [] => false
  end.

(** [sub in s] for strings: [sub] occurs in [s] as a substring. *)
Fixpoint contains (s sub : str) : bool :=
  startswith s sub ||
  match s with
  | [] => false
  | _ :: s' => contains s' sub
  end.

(** ** SudokuBoard *)

(** [SudokuBoard.__create_board(board_file)]: [board_file] is iterated line
    by line. The result is the location of the new [board] list. *)
Definition create_board (board_file : list str) : M Heap loc :=
  board <- new_list ;;
  for_ board_file (fun line =>
    let line := strip line in
    if negb (length line =? 9)%nat then
      (* board = [] rebinds the local name only *)
      new_list ;;;
      raise (SudokuError "Each line in the sudoku puzzle must be 9 chars long")
    else
      r <- new_list ;;
      append board (VList r) ;;;
      for_ line (fun charac =>
        if negb (isdigit charac) then
          raise (SudokuError
                   "Each set of characters in the sudoku puzzle must be within 0-9")
        else
          last <- getitem board (-1) ;;
          last <- append_of last ;;
          n <- lift (int [charac]) ;;
          append last (VInt n))) ;;;
  n <- len board ;;
  if negb (n =? 9) then raise (SudokuError "Error: length of board must be 9")
  else ret board.

(** ** SudokuGame *)

(** The attributes of a [SudokuGame] object. [__init__] sets [start_puzzle];
    [puzzle] and [game_over] do not exist until [start] has run, and reading
    one before that raises [AttributeError]. ([board_file] is kept by
    [__init__] and never read again.) *)
Record SudokuGame : Type := {
  start_puzzle : loc;
  puzzle : option loc;
  game_over : option bool
}.

(** The store together with the game object [self]. *)
Record World : Type := {
  heap : Heap;
  game : SudokuGame
}.

Definition on_heap {A} (m : M Heap A) : M World A :=
  fun w =>
    let (r, h) := m (heap w) in
    (r, {| heap := h; game := game w |}).

Definition get_start_puzzle : M World loc :=
  fun w => (Ok (start_puzzle (game w)), w).

Definition get_puzzle : M World loc :=
  fun w =>
    match puzzle (game w) with
    | Some p => (Ok p, w)
    | None => (Raise (AttributeError "puzzle"), w)
    end.

Definition get_game_over : M World bool :=
  fun w =>
    match game_over (game w) with
    | Some b => (Ok b, w)
    | None => (Raise (AttributeError "game_over"), w)
    end.

Definition set_puzzle (p : loc) : M World unit :=
  fun w =>
    (Ok tt,
     {| heap := heap w;
        game := {| start_puzzle := start_puzzle (game w);
                   puzzle := Some p;
                   game_over := game_over (game w) |} |}).

Definition set_game_over (b : bool) : M World unit :=
  fun w =>
    (Ok tt,
     {| heap := heap w;
        game := {| start_puzzle := start_puzzle (game w);
                   puzzle := puzzle (game w);
                   game_over := Some b |} |}).

(** [SudokuBoard(board_file).board] *)
Definition SudokuBoard (board_file : list str) : M Heap loc :=
  create_board board_file.

(** [SudokuGame.__init__(board_file)]: the new object. *)
Definition init (board_file : list str) : M Heap SudokuGame :=
  board <- SudokuBoard board_file ;;
  ret {| start_puzzle := board; puzzle := None; game_over := None |}.

(** [SudokuGame.start] *)
Definition start : M World unit :=
  set_game_over false ;;;
  p <- on_heap new_list ;;
  set_puzzle p ;;;
  for_ (xrange 9) (fun i =>
    p <- get_puzzle ;;
    r <- on_heap new_list ;;
    on_heap (append p (VList r)) ;;;
    for_ (xrange 9) (fun j =>
      p <- get_puzzle ;;
      pi <- on_heap (getitem p i) ;;
      pi <- append_of pi ;;
      s <- get_start_puzzle ;;
      si <- on_heap (getitem s i) ;;
      si <- as_list si ;;
      v <- on_heap (getitem si j) ;;
      on_heap (append pi v))).

(** *** Private methods

    Inside the class body [self.__name] is the attribute
    [_SudokuGame__name]. The call looks the attribute up in the class
    dictionary, then evaluates the arguments, then runs the method; a name
    the class does not define raises [AttributeError]. The class defines
    [__init__], [start], [check_win] and the four private methods
    [__check_block], [__check_row], [__check_col] and [__check_sqr]. *)

Definition mangle (name : string) : string := "_SudokuGame" ++ name.

Definition method : Type := list val -> M World bool.

Fixpoint lookup_method (dict : list (string * method)) (name : string)
  : option method :=
  match dict with
  | [] => None
  | (n, f) :: dict' => if String.eqb n name then Some f else lookup_method dict' name
  end.

(** [self.__name(args)] *)
Definition self_call (dict : list (string * method)) (name : string)
    (args : M World (list val)) : M World bool :=
  match lookup_method dict (mangle name) with
  | Some f => a <- args ;; f a
  | None => raise (AttributeError (mangle name))
  end.

(** [set(xs)]: the elements are hashed, and a list cannot be. *)
Fixpoint set_of (xs : list val) : result (gset Z) :=
  match xs with
  | [] => Ok ∅
  | VInt n :: xs' =>
      match set_of xs' with
      | Ok s => Ok ({[n]} ∪ s)
      | Raise e => Raise e
      end
  | VList _ :: _ => Raise TypeError
  end.

(** [SudokuGame.__check_block(block)]. [range(1, 10)] is a list nothing but
    [set] sees, so it is written as the sequence it holds. *)
Definition check_block : method := fun args =>
  match args with
  | [block] =>
      block <- as_list block ;;
      xs <- on_heap (read block) ;;
      s <- lift (set_of xs) ;;
      ret (bool_decide (s = list_to_set (seqZ 1 9)))
  | _ => raise TypeError
  end.

Definition dict_block : list (string * method) :=
  [(mangle "__check_block", check_block)].

(** [SudokuGame.__check_row(row)] *)
Definition check_row : method := fun args =>
  match args with
  | [VInt row] =>
      self_call dict_block "__check_block"
        (p <- get_puzzle ;;
         r <- on_heap (getitem p row) ;;
         ret [r])
  | _ => raise TypeError
  end.

(** [SudokuGame.__check_col(col)]: the comprehension reads the name
    [column], which is neither a local nor a global of the module. *)
Definition check_col : method := fun args =>
  match args with
  | [col] =>
      self_call dict_block "__check_block"
        (block <- on_heap new_list ;;
         for_ (xrange 9) (fun row =>
           p <- get_puzzle ;;
           r <- on_heap (getitem p row) ;;
           raise (NameError "column")) ;;;
         ret [VList block])
  | _ => raise TypeError
  end.

(** [SudokuGame.__check_sqr(sqr)]: the first range of the comprehension
    reads the name [row], which is neither a local nor a global. *)
Definition check_sqr : method := fun args =>
  match args with
  | [sqr] =>
      self_call dict_block "__check_block"
        (block <- on_heap new_list ;;
         raise (NameError "row"))
  | _ => raise TypeError
  end.

(** The private methods of the class. *)
Definition dict_checks : list (string * method) :=
  dict_block ++
  [(mangle "__check_row", check_row);
   (mangle "__check_col", check_col);
   (mangle "__check_sqr", check_sqr)].

(** [SudokuGame.check_win] *)
Definition check_win : M World bool :=
  r <- for_return (xrange 9) (fun row =>
         ok <- self_call dict_checks "__check_row" (ret [VInt row]) ;;
         ret (if negb ok then Some false else None)) ;;
  match r with
  | Some v => ret v
  | None =>
  r <- for_return (xrange 9) (fun column =>
         ok <- self_call dict_checks "__check_column" (ret [VInt column]) ;;
         ret (if negb ok then Some false else None)) ;;
  match r with
  | Some v => ret v
  | None =>
  r <- for_return (xrange 3) (fun row =>
         for_return (xrange 3) (fun column =>
           ok <- self_call dict_checks "__check_square"
                   (ret [VInt row; VInt column]) ;;
           ret (if negb ok then Some false else None))) ;;
  match r with
  | Some v => ret v
  | None =>
      set_game_over true ;;;
      ret true
  end
  end
  end.

(** The program's start-up: [game = SudokuGame(boards_file)] in an empty
    store. *)
Definition load (board_file : list str) : result World :=
  match init board_file [] with
  | (Ok g, h) => Ok {| heap := h; game := g |}
  | (Raise e, _) => Raise e
  end.

(** ** Notions the properties are stated with *)

(** A line the loader takes: nine digits once stripped. *)
Definition good_line (line : str) : bool :=
  (length (strip line) =? 9)%nat && forallb isdigit (strip line).

(** The row a good line stands for. *)
Definition row_of (line : str) : list Z := digit_value <$> strip line.

(** The store after a matrix [rows] has been built on top of [h]: the list
    of the rows at [length h], then the rows in order. *)
Definition built (h : Heap) (rows : list (list Z)) : Heap :=
  h ++ [VList <$> seq (Datatypes.S (length h)) (length rows)]
    ++ ((fun row : list Z => VInt <$> row) <$> rows).

(** The list at [l] holds references [rs] to rows whose cells are the
    integers of the matrix [b]. *)
Definition board_at (h : Heap) (l : loc) (rs : list loc) (b : list (list Z))
  : Prop :=
  h !! l = Some (VList <$> rs) /\
  Forall2 (fun r row => h !! r = Some (VInt <$> row)) rs b.

Definition is_9x9 (b : list (list Z)) : Prop :=
  length b = 9%nat /\ Forall (fun row => length row = 9%nat) b.

(** [board[i][j]] *)
Definition cell (l : loc) (i j : Z) : M Heap val :=
  r <- getitem l i ;; r <- as_list r ;; getitem r j.

(** The two loops of [create_board], as they stand in its body. *)
Definition charac_loop (board : loc) (line : str) : M Heap unit :=
  for_ line (fun charac =>
    if negb (isdigit charac) then
      raise (SudokuError
               "Each set of characters in the sudoku puzzle must be within 0-9")
    else
      last <- getitem board (-1) ;;
      last <- append_of last ;;
      n <- lift (int [charac]) ;;
      append last (VInt n)).

Definition line_body (board : loc) (line : str) : M Heap unit :=
  let line := strip line in
  if negb (length line =? 9)%nat then
    new_list ;;;
    raise (SudokuError "Each line in the sudoku puzzle must be 9 chars long")
  else
    r <- new_list ;;
    append board (VList r) ;;;
    charac_loop board line.

Definition solved : list str :=
  map list_ascii_of_string
    ["534678912"; "672195348"; "198342567";
     "859761423"; "426853791"; "713924856";
     "961537284"; "287419635"; "345286179"]%string.

(** A line with blanks put before and after it. *)
Definition pad (p : str * str) (s : str) : str := p.1 ++ s ++ p.2.

(** Two blanks before each line and the newline after it. *)
Definition indent : list (str * str) :=
  replicate 9 (list_ascii_of_string "  ", ["010"%char]).

(** The digits 1 to 9 as a set. *)
Definition one_to_nine : gset Z := list_to_set (seqZ 1 9).

(** A computation that leaves the state as it found it. *)
Definition preserves {S A} (m : M S A) : Prop := forall s, snd (m s) = s.

(** The loop over the rows of [check_win]. *)
Definition rows_loop : M World (option bool) :=
  for_return (xrange 9) (fun row =>
    ok <- check_row [VInt row] ;;
    ret (if negb ok then Some false else None)).

(** A row that passes the block check. *)
Definition valid_row (row : list Z) : bool :=
  bool_decide (list_to_set row = one_to_nine).

(** The two loops of [start], as they stand in its body. *)
Definition copy_cell (i j : Z) : M World unit :=
  p <- get_puzzle ;;
  pi <- on_heap (getitem p i) ;;
  pi <- append_of pi ;;
  s <- get_start_puzzle ;;
  si <- on_heap (getitem s i) ;;
  si <- as_list si ;;
  v <- on_heap (getitem si j) ;;
  on_heap (append pi v).

Definition copy_row (i : Z) : M World unit :=
  p <- get_puzzle ;;
  r <- on_heap new_list ;;
  on_heap (append p (VList r)) ;;;
  for_ (xrange 9) (copy_cell i).

(** The state [w'] of a game just reset from [w], whose start board is the
    matrix [b] in the rows [rs]: the flag is false, the working board is
    [b] again, held in lists that are none of the start board's, and the
    start board is as it was. *)
Definition reset_from (w w' : World) (rs : list loc) (b : list (list Z)) : Prop :=
  exists p rs',
    puzzle (game w') = Some p /\
    game_over (game w') = Some false /\
    start_puzzle (game w') = start_puzzle (game w) /\
    board_at (heap w') p rs' b /\
    board_at (heap w') (start_puzzle (game w')) rs b /\
    forall l, l ∈ p :: rs' -> l ∉ start_puzzle (game w) :: rs.

(** The game object of the solved board, as [__init__] leaves it. *)
Definition solved_game : World :=
  {| heap := built [] (row_of <$> solved);
     game := {| start_puzzle := 0%nat; puzzle := None; game_over := None |} |}.

(** The state once the nine good lines [board_file] have been loaded into
    an empty store and the game started: the start board, then its copy. *)
Definition started (board_file : list str) : World :=
  let rows := row_of <$> board_file in
  {| heap := built (built [] rows) rows;
     game := {| start_puzzle := 0%nat;
                puzzle := Some (length (built [] rows));
                game_over := Some false |} |}.

Definition solved_started : World := started solved.

(** Nine rows that are each 1..9: every row passes, no column does. *)
Definition same_rows : list str :=
  replicate 9 (list_ascii_of_string "123456789").

Definition same_rows_started : World := started same_rows.

(** The completed Sudoku of the specification: each of the nine rows, of
    the nine columns and of the nine 3x3 squares holds exactly 1..9. *)
Definition column (b : list (list Z)) (c : nat) : list Z :=
  (fun row : list Z => default 0 (row !! c)) <$> b.

Definition square (b : list (list Z)) (r c : nat) : list Z :=
  flat_map (fun row : list Z => take 3 (drop (3 * c) row)) (take 3 (drop (3 * r) b)).

Definition spec_solved (b : list (list Z)) : bool :=
  forallb valid_row b
  && forallb (fun c => valid_row (column b c)) (seq 0 9)
  && forallb (fun r => forallb (fun c => valid_row (square b r c)) (seq 0 3))
       (seq 0 3).

(** ** SudokuUI: the key handler *)

Section UI.
(** The Tkinter canvas is not modelled: its type, and the three methods of
    [SudokuUI] that only draw on it ([__draw_puzzle], [__draw_cursor] and
    [__draw_victory]), are parameters. *)
Variable Canvas : Type.

(** The attributes of the [SudokuUI] object: [game] is the game object,
    here with the store it lives in; [row] and [col] are the selected
    cell, [-1] for none. *)
Record SudokuUI : Type := {
  ui_game : World;
  row : Z;
  col : Z;
  canvas : Canvas
}.

Variables draw_puzzle draw_cursor draw_victory : M SudokuUI unit.

Definition on_game {A} (m : M World A) : M SudokuUI A :=
  fun ui =>
    let (r, w) := m (ui_game ui) in
    (r, {| ui_game := w; row := row ui; col := col ui; canvas := canvas ui |}).

Definition get_row : M SudokuUI Z := fun ui => (Ok (row ui), ui).
Definition get_col : M SudokuUI Z := fun ui => (Ok (col ui), ui).

(** [self.col, self.row = c, r] *)
Definition set_cursor (c r : Z) : M SudokuUI unit :=
  fun ui =>
    (Ok tt,
     {| ui_game := ui_game ui; row := r; col := c; canvas := canvas ui |}).

(** [v[i] = x]: an [int] has no item to assign. *)
Definition setitem_of (v : val) : M SudokuUI loc :=
  match v with
  | VList l => ret l
  | VInt _ => raise TypeError
  end.

(** [SudokuUI.__key_pressed(event)], by [event.char]. *)
Definition key_pressed (event_char : str) : M SudokuUI unit :=
  over <- on_game get_game_over ;;
  if over then ret tt
  else
    c <- get_col ;;
    r <- get_row ;;
    if (0 <=? c) && (0 <=? r)
       && contains (list_ascii_of_string "1234567890") event_char
    then
      n <- lift (int event_char) ;;
      p <- on_game get_puzzle ;;
      r <- get_row ;;
      pr <- on_game (on_heap (getitem p r)) ;;
      pr <- setitem_of pr ;;
      c <- get_col ;;
      on_game (on_heap (setitem pr c (VInt n))) ;;;
      set_cursor (-1) (-1) ;;;
      draw_puzzle ;;;
      draw_cursor ;;;
      won <- on_game check_win ;;
      if won then draw_victory else ret tt
    else ret tt.
End UI.

Arguments ui_game {Canvas} _.
Arguments row {Canvas} _.
Arguments col {Canvas} _.
Arguments canvas {Canvas} _.
Arguments on_game {Canvas A} m.
Arguments get_row {Canvas}.
Arguments get_col {Canvas}.
Arguments set_cursor {Canvas} c r.
Arguments setitem_of {Canvas} v.
Arguments key_pressed {Canvas} draw_puzzle draw_cursor draw_victory event_char.

(** The solved board with its first cell left blank, loaded and started. *)
Definition one_blank : list str :=
  list_ascii_of_string "034678912" :: drop 1 solved.

Definition one_blank_started : World := started one_blank.

(** No cell selected, the solved board started, nothing drawn. *)
Definition no_selection : SudokuUI unit :=
  {| ui_game := solved_started; row := -1; col := -1; canvas := tt |}.

Definition key_5 : M (SudokuUI unit) unit :=
  key_pressed (Canvas := unit) (ret tt) (ret tt) (ret tt) (list_ascii_of_string "5").

(** The cell [(r, c)] selected on the solved board. *)
Definition selected (r c : Z) : SudokuUI unit :=
  {| ui_game := solved_started; row := r; col := c; canvas := tt |}.

Definition key_1 : M (SudokuUI unit) unit :=
  key_pressed (Canvas := unit) (ret tt) (ret tt) (ret tt) (list_ascii_of_string "1").

(** ** More of the program, and the notions its properties are stated with *)

(** The three error messages of [create_board]. *)
Definition msg_length : string :=
  "Each line in the sudoku puzzle must be 9 chars long".
Definition msg_digit : string :=
  "Each set of characters in the sudoku puzzle must be within 0-9".
Definition msg_count : string := "Error: length of board must be 9".

(** The message a line that is not good stops the loader with. *)
Definition line_error (line : str) : string :=
  if (length (strip line) =? 9)%nat then msg_digit else msg_length.

(** ** SudokuUI on a canvas *)

Definition MARGIN : Z := 20.
Definition SIDE : Z := 50.
Definition WIDTH : Z := MARGIN * 2 + SIDE * 9.
Definition HEIGHT : Z := WIDTH.

(** What the program does with its Tkinter canvas: it creates lines, texts
    and rectangles, deletes the items that carry a tag, and takes the
    keyboard focus. The canvas is the items created and not deleted, oldest
    first, and the focus. *)
Inductive item : Type :=
| line (x0 y0 x1 y1 : Z) (fill : string)
| text (x y : Z) (text : val) (tags fill : string)
| rectangle (x0 y0 x1 y1 : Z) (outline tags : string).

Record TkCanvas : Type := {
  items : list item;
  focus : bool
}.

Abbreviation UI := (SudokuUI TkCanvas).

Definition has_tag (tag : string) (it : item) : bool :=
  match it with
  | line _ _ _ _ _ => false
  | text _ _ _ tags _ => String.eqb tags tag
  | rectangle _ _ _ _ _ tags => String.eqb tags tag
  end.

Definition set_canvas (cv : TkCanvas) (ui : UI) : UI :=
  {| ui_game := ui_game ui; row := row ui; col := col ui; canvas := cv |}.

(** [self.canvas.delete(tag)] *)
Definition canvas_delete (tag : string) : M UI unit :=
  fun ui =>
    (Ok tt,
     set_canvas {| items := filter (fun it => negb (has_tag tag it)) (items (canvas ui));
                   focus := focus (canvas ui) |} ui).

(** [self.canvas.create_line], [create_text], [create_rectangle] *)
Definition canvas_create (it : item) : M UI unit :=
  fun ui =>
    (Ok tt,
     set_canvas {| items := items (canvas ui) ++ [it];
                   focus := focus (canvas ui) |} ui).

(** [self.canvas.focus_set()] *)
Definition focus_set : M UI unit :=
  fun ui =>
    (Ok tt, set_canvas {| items := items (canvas ui); focus := true |} ui).

(** [v == 0] for a cell value: a list is not equal to an integer. *)
Definition is_zero (v : val) : bool :=
  match v with
  | VInt n => n =? 0
  | VList _ => false
  end.

(** [SudokuUI.__draw_grid] *)
Definition draw_grid : M UI unit :=
  for_ (xrange 10) (fun i =>
    let color := if i mod 3 =? 0 then "blue"%string else "gray"%string in
    canvas_create
      (line (MARGIN + i * SIDE) MARGIN (MARGIN + i * SIDE) (HEIGHT - MARGIN) color) ;;;
    canvas_create
      (line MARGIN (MARGIN + i * SIDE) (WIDTH - MARGIN) (MARGIN + i * SIDE) color)).

(** [SudokuUI.__draw_cursor] *)
Definition draw_cursor : M UI unit :=
  canvas_delete "cursor" ;;;
  r <- get_row ;;
  c <- get_col ;;
  if (0 <=? r) && (0 <=? c) then
    c <- get_col ;;
    r <- get_row ;;
    canvas_create
      (rectangle (MARGIN + c * SIDE + 1) (MARGIN + r * SIDE + 1)
                 (MARGIN + (c + 1) * SIDE - 1) (MARGIN + (r + 1) * SIDE - 1)
                 "red" "cursor")
  else ret tt.

(** [SudokuUI.__draw_victory] is defined without [self], so the call
    [self.__draw_victory()] passes one argument to a function of none. *)
Definition draw_victory : M UI unit := raise TypeError.

(** [SudokuUI.__cell_clicked(event)], by [event.x] and [event.y]. *)
Definition cell_clicked (x y : Z) : M UI unit :=
  over <- on_game get_game_over ;;
  if over then ret tt
  else
    (if (MARGIN <? x) && (x <? WIDTH - MARGIN)
        && ((MARGIN <? y) && (y <? HEIGHT - MARGIN))
     then focus_set else ret tt) ;;;
    let row := (y - MARGIN) / SIDE in
    let col := (x - MARGIN) / SIDE in
    r <- get_row ;;
    c <- get_col ;;
    (if (row =? r) && (col =? c) then set_cursor (-1) (-1)
     else
       p <- on_game get_puzzle ;;
       pr <- on_game (on_heap (getitem p row)) ;;
       pr <- as_list pr ;;
       v <- on_game (on_heap (getitem pr col)) ;;
       if is_zero v then set_cursor col row else ret tt) ;;;
    draw_cursor.

Section Drawing.
(** [a == b] on two list objects is the one comparison of values that is
    not modelled; no cell the program stores is a list. *)
Variable list_eq : loc -> loc -> M Heap bool.

(** [a == b] *)
Definition eq_val (a b : val) : M Heap bool :=
  match a, b with
  | VInt m, VInt n => ret (m =? n)
  | VList l, VList k => list_eq l k
  | _, _ => ret false
  end.

(** [SudokuUI.__draw_puzzle] *)
Definition draw_puzzle : M UI unit :=
  canvas_delete "numbers" ;;;
  for_ (xrange 9) (fun i =>
    for_ (xrange 9) (fun j =>
      p <- on_game get_puzzle ;;
      pi <- on_game (on_heap (getitem p i)) ;;
      pi <- as_list pi ;;
      answer <- on_game (on_heap (getitem pi j)) ;;
      if negb (is_zero answer) then
        let x := MARGIN + j * SIDE + SIDE / 2 in
        let y := MARGIN + i * SIDE + SIDE / 2 in
        s <- on_game get_start_puzzle ;;
        si <- on_game (on_heap (getitem s i)) ;;
        si <- as_list si ;;
        original <- on_game (on_heap (getitem si j)) ;;
        same <- on_game (on_heap (eq_val answer original)) ;;
        let color := if same then "black"%string else "sea green"%string in
        canvas_create (text x y answer "numbers" color)
      else ret tt)).

(** [SudokuUI.__clear_answers] *)
Definition clear_answers : M UI unit :=
  on_game start ;;;
  canvas_delete "victory" ;;;
  draw_puzzle.

(** [SudokuUI.__key_pressed] with the drawing methods above. *)
Definition on_key : str -> M UI unit :=
  key_pressed draw_puzzle draw_cursor draw_victory.

(** [SudokuUI.__init__(parent, game)] and [__initUI], without the Tkinter
    widgets they set up (the window title, the frame, the button and the
    two event bindings): the attributes, an empty canvas, and the two
    drawing calls. *)
Definition init_ui (game : World) : result unit * UI :=
  (draw_grid ;;; draw_puzzle)
    {| ui_game := game; row := 0; col := 0;
       canvas := {| items := []; focus := false |} |}.
End Drawing.

(** ** Notions for the properties of the user interface *)

Definition with_items (its : list item) (ui : UI) : UI :=
  set_canvas {| items := its; focus := focus (canvas ui) |} ui.

(** The cell [b[i][j]] of a matrix. *)
Definition at_ (b : list (list Z)) (i j : nat) : option Z :=
  match b !! i with
  | Some row => row !! j
  | None => None
  end.

(** The matrix [b] with [v] at row [r], column [c]. *)
Definition write (b : list (list Z)) (r c : nat) (v : Z) : list (list Z) :=
  alter (fun row : list Z => <[c := v]> row) r b.

(** The rectangle that marks the cell at row [r], column [c]. *)
Definition cursor_of (r c : Z) : item :=
  rectangle (MARGIN + c * SIDE + 1) (MARGIN + r * SIDE + 1)
            (MARGIN + (c + 1) * SIDE - 1) (MARGIN + (r + 1) * SIDE - 1)
            "red" "cursor".

(** The number drawn for the cell at row [i], column [j], holding [n] where
    the start board holds [n0]: in the middle of the cell, black when the
    two are equal. *)
Definition number_of (i j : nat) (n n0 : Z) : item :=
  text (MARGIN + Z.of_nat j * SIDE + SIDE / 2)
       (MARGIN + Z.of_nat i * SIDE + SIDE / 2)
       (VInt n) "numbers"
       (if n =? n0 then "black"%string else "sea green"%string).

Definition number_at (b0 b : list (list Z)) (i j : nat) : list item :=
  match at_ b i j, at_ b0 i j with
  | Some n, Some n0 => if n =? 0 then [] else [number_of i j n n0]
  | _, _ => []
  end.

(** The numbers of the working board [b] over the start board [b0], row
    by row. *)
Definition numbers (b0 b : list (list Z)) : list item :=
  flat_map (fun i => flat_map (number_at b0 b i) (seq 0 9)) (seq 0 9).

Definition in_range (b : list (list Z)) : Prop :=
  Forall (Forall (fun n => 0 <= n <= 9)) b.

(** A game in play: the start board [b0] (rows in [rs0]) and the working
    board [b] (at [p], rows in [rs]) are 9x9 matrices of 0..9 held in lists
    of their own, the ten lists of the working board being distinct, and
    the game is not over. *)
Definition game_at (w : World) (rs0 : list loc) (p : loc) (rs : list loc)
    (b0 b : list (list Z)) : Prop :=
  board_at (heap w) (start_puzzle (game w)) rs0 b0 /\
  is_9x9 b0 /\ in_range b0 /\
  puzzle (game w) = Some p /\
  board_at (heap w) p rs b /\
  is_9x9 b /\ in_range b /\
  NoDup (p :: rs) /\
  (forall l, l ∈ p :: rs -> l ∉ start_puzzle (game w) :: rs0) /\
  game_over (game w) = Some false.

Definition game_ok (w : World) (b0 b : list (list Z)) : Prop :=
  exists rs0 p rs, game_at w rs0 p rs b0 b.

(** A user interface on the game [w] with the cell [(r, c)] selected and
    nothing drawn. *)
Definition ui_of (w : World) (r c : Z) : UI :=
  {| ui_game := w; row := r; col := c;
     canvas := {| items := []; focus := false |} |}.

(** A comparison of lists to put where one is asked for. *)
Definition no_list_eq : loc -> loc -> M Heap bool := fun _ _ => raise TypeError.

(** The solved board with its first cell blank, started, with that cell
    selected. *)
Definition one_blank_ui : UI := ui_of one_blank_started 0 0.

(** The solved board with the last cell of its first row left blank,
    started, with the cell [(r, c)] selected and nothing drawn. *)
Definition last_blank : list str :=
  list_ascii_of_string "534678910" :: drop 1 solved.

Definition last_blank_ui (r c : Z) : UI := ui_of (started last_blank) r c.

(** A click strictly inside the grid, where the canvas takes the focus. *)
Definition inside (x y : Z) : bool :=
  (MARGIN <? x) && (x <? WIDTH - MARGIN)
  && ((MARGIN <? y) && (y <? HEIGHT - MARGIN)).

(** The selection after a click on the cell [(r, c)] that holds [n]: none
    when the cell was the selected one, the cell when it is blank, the old
    selection otherwise. *)
Definition select (ui : UI) (r c n : Z) : Z * Z :=
  if (r =? row ui) && (c =? col ui) then (-1, -1)
  else if n =? 0 then (r, c)
  else (row ui, col ui).

(** The user interface once a click at [(x, y)] has given the canvas the
    focus, or not. *)
Definition clicked (ui : UI) (x y : Z) : UI :=
  {| ui_game := ui_game ui; row := row ui; col := col ui;
     canvas := {| items := items (canvas ui);
                  focus := if inside x y then true else focus (canvas ui) |} |}.

(** The twenty lines of the grid: for each of the ten positions a vertical
    and a horizontal line, blue at every third position and gray between. *)
Definition grid_lines : list item :=
  flat_map
    (fun i : Z =>
       let color := if i mod 3 =? 0 then "blue"%string else "gray"%string in
       [line (MARGIN + i * SIDE) MARGIN (MARGIN + i * SIDE) (HEIGHT - MARGIN) color;
        line MARGIN (MARGIN + i * SIDE) (WIDTH - MARGIN) (MARGIN + i * SIDE) color])
    (xrange 10).

(** ** The events of a session *)

(** What the window sends to the handlers the program binds: a click of
    the left button at a point, a key with its character or with none, and
    the button that clears the answers. *)
Inductive event : Type :=
| Click (x y : Z)
| Key (char : option ascii)
| ClearAnswers.

Definition char_of (char : option ascii) : str :=
  match char with
  | Some c => [c]
  | None => []
  end.

Section Session.
Variable list_eq : loc -> loc -> M Heap bool.

Definition handle (e : event) : M UI unit :=
  match e with
  | Click x y => cell_clicked x y
  | Key char => on_key list_eq (char_of char)
  | ClearAnswers => clear_answers list_eq
  end.

(** The main loop: Tkinter reports an exception a handler raises and goes
    on with the next event, in the state the handler left. *)
Definition run (es : list event) (ui : UI) : UI :=
  fold_left (fun ui e => snd (handle e ui)) es ui.

(** The program from the board file on: the game is built and started,
    the user interface is built, and the events are handled. *)
Definition session (board_file : list str) (es : list event) : result UI :=
  match load board_file with
  | Raise e => Raise e
  | Ok game =>
      match start game with
      | (Raise e, _) => Raise e
      | (Ok _, game) =>
          match init_ui list_eq game with
          | (Raise e, _) => Raise e
          | (Ok _, ui) => Ok (run es ui)
          end
      end
  end.
End Session.

(** * Properties *)

(** ** The monad and the list objects *)

Section Monad.
Context {S A B : Type}.

Lemma bind_ok (m : M S A) (k : A -> M S B) s a s' :
  m s = (Ok a, s') -> bind m k s = k a s'.
Proof. intros H. unfold bind. now rewrite H. Qed.

Lemma bind_raise (m : M S A) (k : A -> M S B) s e s' :
  m s = (Raise e, s') -> bind m k s = (Raise e, s').
Proof. intros H. unfold bind. now rewrite H. Qed.
End Monad.

Lemma index_nat (n i : nat) : (i < n)%nat -> index n (Z.of_nat i) = Some i.
Proof.
  intros Hi. unfold index.
  destruct (Z.ltb_spec (Z.of_nat i) 0); [lia|].
  destruct (Z.leb_spec 0 (Z.of_nat i)); [|lia].
  destruct (Z.ltb_spec (Z.of_nat i) (Z.of_nat n)); [|lia].
  simpl. now rewrite Nat2Z.id.
Qed.

Lemma index_last (n : nat) : index (Datatypes.S n) (-1) = Some n.
Proof.
  unfold index.
  replace (-1 <? 0) with true by reflexivity.
  destruct (Z.leb_spec 0 (-1 + Z.of_nat (Datatypes.S n))); [|lia].
  destruct (Z.ltb_spec (-1 + Z.of_nat (Datatypes.S n)) (Z.of_nat (Datatypes.S n))); [|lia].
  simpl. f_equal. lia.
Qed.

Lemma index_Some (n : nat) (i : Z) (k : nat) :
  index n i = Some k -> (k < n)%nat.
Proof.
  unfold index.
  destruct (_ && _) eqn:E; [|discriminate].
  apply andb_prop in E as [E1 E2].
  apply Z.leb_le in E1. apply Z.ltb_lt in E2.
  intros [= <-]. lia.
Qed.

Lemma index_out (n : nat) (i : Z) : Z.of_nat n <= i -> index n i = None.
Proof.
  intros Hi. unfold index.
  destruct (Z.ltb_spec i 0); [lia|].
  destruct (Z.ltb_spec i (Z.of_nat n)); [lia|].
  now rewrite andb_false_r.
Qed.

Section ListObjects.
Implicit Types (h : Heap) (l : loc) (xs : list val) (v : val).

Lemma read_ok h l xs : h !! l = Some xs -> read l h = (Ok xs, h).
Proof. intros H. unfold read. now rewrite H. Qed.

Lemma append_ok h l xs v :
  h !! l = Some xs -> append l v h = (Ok tt, <[l := xs ++ [v]]> h).
Proof. intros H. unfold append. now rewrite H. Qed.

Lemma len_ok h l xs :
  h !! l = Some xs -> len l h = (Ok (Z.of_nat (length xs)), h).
Proof. intros H. unfold len. now rewrite (bind_ok _ _ _ _ _ (read_ok _ _ _ H)). Qed.

Lemma getitem_ok h l xs (i : nat) v :
  h !! l = Some xs -> xs !! i = Some v ->
  getitem l (Z.of_nat i) h = (Ok v, h).
Proof.
  intros H Hi. unfold getitem.
  rewrite (bind_ok _ _ _ _ _ (read_ok _ _ _ H)).
  rewrite index_nat by (eapply lookup_lt_Some; eauto).
  now rewrite Hi.
Qed.

Lemma getitem_last h l xs v :
  h !! l = Some (xs ++ [v]) -> getitem l (-1) h = (Ok v, h).
Proof.
  intros H. unfold getitem.
  rewrite (bind_ok _ _ _ _ _ (read_ok _ _ _ H)).
  rewrite length_app, Nat.add_1_r, index_last.
  now rewrite list_lookup_middle.
Qed.

Lemma getitem_out h l xs (i : Z) :
  h !! l = Some xs -> Z.of_nat (length xs) <= i ->
  getitem l i h = (Raise IndexError, h).
Proof.
  intros H Hi. unfold getitem.
  rewrite (bind_ok _ _ _ _ _ (read_ok _ _ _ H)).
  now rewrite index_out.
Qed.

(** Appending to the newest list of the store. *)
Lemma append_newest h xs v :
  append (length h) v (h ++ [xs]) = (Ok tt, h ++ [xs ++ [v]]).
Proof.
  rewrite (append_ok _ _ xs) by now rewrite list_lookup_middle.
  f_equal.
  rewrite insert_app_r_alt by lia.
  now rewrite Nat.sub_diag.
Qed.
End ListObjects.

(** ** The loader *)

Lemma int_digit c : isdigit c = true -> int [c] = Ok (digit_value c).
Proof. intros H. unfold int. simpl. now rewrite H. Qed.

#[local] Opaque int.

Lemma length_built h rows :
  length (built h rows) = (length h + 1 + length rows)%nat.
Proof. unfold built. rewrite !length_app, !length_fmap. simpl. lia. Qed.

Lemma built_snoc h rows row :
  built h (rows ++ [row]) =
  <[length h := (VList <$> seq (Datatypes.S (length h)) (length rows))
                  ++ [VList (length (built h rows))]]> (built h rows)
    ++ [VInt <$> row].
Proof.
  unfold built at 1 3.
  rewrite insert_app_r_alt by lia.
  rewrite Nat.sub_diag. simpl.
  rewrite length_app. simpl.
  rewrite seq_app, !fmap_app. simpl.
  rewrite length_built.
  rewrite <- !app_assoc. simpl.
  repeat f_equal. lia.
Qed.

Lemma create_board_unfold board_file :
  create_board board_file =
  (board <- new_list ;;
   for_ board_file (line_body board) ;;;
   n <- len board ;;
   if negb (n =? 9) then raise (SudokuError "Error: length of board must be 9")
   else ret board).
Proof. reflexivity. Qed.

Section Loader.
Variables (h0 : Heap).
Let board := length h0.

(** One turn of the loop on a digit: the last row of [board] is the newest
    list, and the digit goes to its end. *)
Ltac charac_step Hb :=
  erewrite bind_ok;
  [| erewrite bind_ok by (eapply getitem_last, lookup_app_l_Some, Hb);
     simpl;
     erewrite bind_ok by reflexivity;
     erewrite bind_ok by (unfold lift; now rewrite int_digit);
     apply append_newest ].

(** The characters of a line of digits are appended to the newest row. *)
Lemma charac_loop_ok (chars : str) (H : Heap) (refs : list val) (cur : list val) :
  H !! board = Some (refs ++ [VList (length H)]) ->
  forallb isdigit chars = true ->
  charac_loop board chars (H ++ [cur]) =
  (Ok tt, H ++ [cur ++ (VInt <$> (digit_value <$> chars))]).
Proof.
  intros Hb. revert cur.
  induction chars as [|c chars IH]; intros cur Hd; simpl.
  - now rewrite app_nil_r.
  - apply andb_prop in Hd as [Hc Hd].
    unfold charac_loop in *. simpl. rewrite Hc. simpl.
    charac_step Hb.
    rewrite IH by assumption.
    now rewrite <- app_assoc.
Qed.

(** A character that is not a digit stops the loop with the error. *)
Lemma charac_loop_bad (chars : str) (H : Heap) (refs : list val) (cur : list val) :
  H !! board = Some (refs ++ [VList (length H)]) ->
  forallb isdigit chars = false ->
  exists msg h',
    charac_loop board chars (H ++ [cur]) = (Raise (SudokuError msg), h').
Proof.
  intros Hb. revert cur.
  induction chars as [|c chars IH]; intros cur Hd; simpl in Hd.
  - discriminate.
  - unfold charac_loop in *. simpl.
    destruct (isdigit c) eqn:Hc; simpl in *.
    + charac_step Hb. now apply IH.
    + eexists _, _. reflexivity.
Qed.

Lemma built_board rows :
  built h0 rows !! board = Some (VList <$> seq (Datatypes.S board) (length rows)).
Proof. unfold built, board. now apply list_lookup_middle. Qed.

(** The store while a new row is being filled. *)
Lemma new_row rows :
  exists H,
    <[board := (VList <$> seq (Datatypes.S board) (length rows))
                 ++ [VList (length (built h0 rows))]]> (built h0 rows) = H /\
    length H = length (built h0 rows) /\
    H !! board = Some ((VList <$> seq (Datatypes.S board) (length rows))
                         ++ [VList (length H)]).
Proof.
  eexists; split; [reflexivity|]. split.
  - now rewrite length_insert.
  - rewrite length_insert. apply list_lookup_insert_eq.
    rewrite length_built. unfold board. lia.
Qed.

Lemma line_body_ok rows line :
  good_line line = true ->
  line_body board line (built h0 rows) = (Ok tt, built h0 (rows ++ [row_of line])).
Proof.
  intros Hg. apply andb_prop in Hg as [Hlen Hd].
  unfold line_body. rewrite Hlen. simpl.
  erewrite bind_ok by reflexivity.
  erewrite bind_ok by
    (erewrite append_ok by (apply lookup_app_l_Some, built_board); reflexivity).
  rewrite insert_app_l by (rewrite length_built; unfold board; lia).
  destruct (new_row rows) as (H & HH & HlenH & Hb).
  rewrite built_snoc. fold board. rewrite HH.
  erewrite charac_loop_ok by eauto.
  reflexivity.
Qed.

Lemma line_body_bad rows line :
  good_line line = false ->
  exists msg h',
    line_body board line (built h0 rows) = (Raise (SudokuError msg), h').
Proof.
  intros Hg. unfold line_body.
  destruct (length (strip line) =? 9)%nat eqn:Hlen; simpl.
  - unfold good_line in Hg. rewrite Hlen in Hg. simpl in Hg.
    erewrite bind_ok by reflexivity.
    erewrite bind_ok by
      (erewrite append_ok by (apply lookup_app_l_Some, built_board); reflexivity).
    rewrite insert_app_l by (rewrite length_built; unfold board; lia).
    destruct (new_row rows) as (H & HH & HlenH & Hb).
    rewrite HH.
    eapply charac_loop_bad; eauto.
  - eexists _, _. reflexivity.
Qed.

Lemma line_loop_ok board_file : forall rows,
  forallb good_line board_file = true ->
  for_ board_file (line_body board) (built h0 rows) =
  (Ok tt, built h0 (rows ++ (row_of <$> board_file))).
Proof.
  induction board_file as [|line board_file IH]; intros rows Hg; simpl.
  - now rewrite app_nil_r.
  - simpl in Hg. apply andb_prop in Hg as [Hl Hg].
    erewrite bind_ok by now apply line_body_ok.
    rewrite IH by assumption.
    now rewrite <- app_assoc.
Qed.

Lemma line_loop_bad board_file : forall rows,
  forallb good_line board_file = false ->
  exists msg h',
    for_ board_file (line_body board) (built h0 rows) =
    (Raise (SudokuError msg), h').
Proof.
  induction board_file as [|line board_file IH]; intros rows Hg; simpl in *.
  - discriminate.
  - destruct (good_line line) eqn:Hl; simpl in Hg.
    + erewrite bind_ok by now apply line_body_ok.
      now apply IH.
    + destruct (line_body_bad rows line Hl) as (msg & h' & E).
      exists msg, h'. now apply bind_raise.
Qed.

(** What [create_board] does, by the lines it is given. *)
Lemma create_board_ok board_file :
  forallb good_line board_file = true ->
  length board_file = 9%nat ->
  create_board board_file h0 = (Ok board, built h0 (row_of <$> board_file)).
Proof.
  intros Hg Hn. rewrite create_board_unfold.
  erewrite bind_ok by reflexivity.
  erewrite bind_ok by (apply (line_loop_ok board_file []), Hg).
  erewrite bind_ok by (apply len_ok, built_board).
  simpl. now rewrite length_fmap, length_seq, length_fmap, Hn.
Qed.

Lemma create_board_bad_count board_file :
  forallb good_line board_file = true ->
  length board_file <> 9%nat ->
  create_board board_file h0 =
  (Raise (SudokuError "Error: length of board must be 9"),
   built h0 (row_of <$> board_file)).
Proof.
  intros Hg Hn. rewrite create_board_unfold.
  erewrite bind_ok by reflexivity.
  erewrite bind_ok by (apply (line_loop_ok board_file []), Hg).
  erewrite bind_ok by (apply len_ok, built_board).
  simpl. rewrite length_fmap, length_seq, length_fmap.
  destruct (Z.eqb_spec (Z.of_nat (length board_file)) 9) as [E|E]; [lia|].
  reflexivity.
Qed.

Lemma create_board_bad_line board_file :
  forallb good_line board_file = false ->
  exists msg h',
    create_board board_file h0 = (Raise (SudokuError msg), h').
Proof.
  intros Hg. rewrite create_board_unfold.
  erewrite bind_ok by reflexivity.
  destruct (line_loop_bad board_file [] Hg) as (msg & h' & E).
  exists msg, h'. now apply bind_raise.
Qed.

Lemma built_board_at rows :
  board_at (built h0 rows) board (seq (Datatypes.S board) (length rows)) rows.
Proof.
  split; [apply built_board|].
  apply Forall2_same_length_lookup_2; [now rewrite length_seq|].
  intros i r row Hr Hrow.
  apply lookup_seq in Hr as [-> Hi].
  unfold built.
  rewrite lookup_app_r by (unfold board; lia).
  replace (Datatypes.S board + i - length h0)%nat with (Datatypes.S i)
    by (unfold board; lia).
  simpl. now rewrite list_lookup_fmap, Hrow.
Qed.
End Loader.

Lemma forallb_Forall {X} (f : X -> bool) (xs : list X) :
  forallb f xs = true <-> Forall (fun x => f x = true) xs.
Proof.
  induction xs as [|x xs IH]; simpl.
  - split; [constructor|reflexivity].
  - rewrite andb_true_iff, IH, Forall_cons. reflexivity.
Qed.

Lemma forallb_false {X} (f : X -> bool) (xs : list X) :
  forallb f xs = false <-> exists x, x ∈ xs /\ f x = false.
Proof.
  induction xs as [|x xs IH]; simpl.
  - split; [discriminate|]. intros (x & Hx & _). inversion Hx.
  - rewrite andb_false_iff, IH. split.
    + intros [H|(y & Hy & H)].
      * exists x. split; [left|assumption].
      * exists y. split; [now right|assumption].
    + intros (y & Hy & H). inversion Hy; subst; [now left|right; eauto].
Qed.

Lemma good_line_true line :
  good_line line = true <->
  length (strip line) = 9%nat /\ Forall (fun c => isdigit c = true) (strip line).
Proof.
  unfold good_line. now rewrite andb_true_iff, Nat.eqb_eq, forallb_Forall.
Qed.

Lemma good_line_false line :
  good_line line = false <->
  length (strip line) <> 9%nat \/ exists c, c ∈ strip line /\ isdigit c = false.
Proof.
  unfold good_line. now rewrite andb_false_iff, Nat.eqb_neq, forallb_false.
Qed.

(** ** Stripping *)

Lemma digit_not_space c : isdigit c = true -> isspace c = false.
Proof.
  unfold isdigit, isspace. intros H.
  apply andb_prop in H as [H1 H2].
  apply Nat.leb_le in H1. apply Nat.leb_le in H2.
  apply orb_false_iff. split.
  - apply andb_false_iff. right. apply Nat.leb_gt. lia.
  - apply Nat.eqb_neq. lia.
Qed.

Lemma lstrip_space (pad s : str) :
  forallb isspace pad = true -> lstrip (pad ++ s) = lstrip s.
Proof.
  induction pad as [|c pad IH]; simpl; [reflexivity|].
  intros H. apply andb_prop in H as [Hc H]. rewrite Hc. now apply IH.
Qed.

Lemma lstrip_digits (s t : str) :
  s <> [] -> forallb isdigit s = true -> lstrip (s ++ t) = s ++ t.
Proof.
  destruct s as [|c s]; [congruence|]. simpl. intros _ H.
  apply andb_prop in H as [Hc _]. now rewrite (digit_not_space c Hc).
Qed.

Lemma forallb_rev {X} (f : X -> bool) (xs : list X) :
  forallb f (rev xs) = forallb f xs.
Proof.
  induction xs as [|x xs IH]; simpl; [reflexivity|].
  rewrite forallb_app, IH. simpl. rewrite andb_true_r. apply andb_comm.
Qed.

(** Blanks around a non-empty string of digits are what [strip] removes. *)
Lemma strip_padded (lead s trail : str) :
  s <> [] ->
  forallb isspace lead = true -> forallb isspace trail = true ->
  forallb isdigit s = true ->
  strip (lead ++ s ++ trail) = s.
Proof.
  intros Hs Hl Ht Hd. unfold strip, rstrip.
  rewrite lstrip_space, lstrip_digits by assumption.
  rewrite rev_app_distr.
  rewrite lstrip_space by now rewrite forallb_rev.
  rewrite <- (app_nil_r (rev s)).
  rewrite lstrip_digits.
  - now rewrite app_nil_r, rev_involutive.
  - intros E. apply (f_equal (@rev ascii)) in E. now rewrite rev_involutive in E.
  - now rewrite forallb_rev.
Qed.

(** [lstrip] drops a prefix and [rstrip] a suffix. *)
Lemma lstrip_suffix (s : str) : exists lead, s = lead ++ lstrip s.
Proof.
  induction s as [|c s [lead IH]]; simpl.
  - now exists [].
  - destruct (isspace c).
    + exists (c :: lead). simpl. now f_equal.
    + now exists [].
Qed.

Lemma rstrip_prefix (s : str) : exists trail, s = rstrip s ++ trail.
Proof.
  destruct (lstrip_suffix (rev s)) as [lead E].
  exists (rev lead). unfold rstrip.
  rewrite <- rev_app_distr, <- E. now rewrite rev_involutive.
Qed.

(** On a line that starts with no blank, the characters of the stripped
    line are the characters of the line itself. *)
Lemma strip_lookup (line : str) (j : nat) (c : ascii) :
  lstrip line = line ->
  (j < length (strip line))%nat ->
  line !! j = Some c ->
  strip line !! j = Some c.
Proof.
  intros Hl Hj Hc. unfold strip in *. rewrite Hl in *.
  destruct (rstrip_prefix line) as [trail E].
  rewrite E in Hc. now rewrite lookup_app_l in Hc.
Qed.

Lemma strip_digits (s : str) :
  s <> [] -> forallb isdigit s = true -> strip s = s.
Proof.
  intros Hs Hd.
  rewrite <- (strip_padded [] s []) at 2 by easy.
  now rewrite app_nil_r.
Qed.

Lemma board_at_cell h l rs b (i j : nat) row n :
  board_at h l rs b -> b !! i = Some row -> row !! j = Some n ->
  cell l (Z.of_nat i) (Z.of_nat j) h = (Ok (VInt n), h).
Proof.
  intros [Hl Hrows] Hi Hj. unfold cell.
  destruct (Forall2_lookup_r _ _ _ _ _ Hrows Hi) as (r & Hr & Hrow).
  erewrite bind_ok by
    (eapply getitem_ok; [eassumption | now rewrite list_lookup_fmap, Hr]).
  erewrite bind_ok by reflexivity.
  eapply getitem_ok; [eassumption|].
  now rewrite list_lookup_fmap, Hj.
Qed.

Lemma good_lines board_file :
  (forall line, line ∈ board_file ->
     length (strip line) = 9%nat /\
     Forall (fun c => isdigit c = true) (strip line)) ->
  forallb good_line board_file = true.
Proof.
  intros H. apply forallb_Forall, Forall_forall.
  intros line Hline. now apply good_line_true, H.
Qed.

Lemma is_9x9_rows board_file :
  length board_file = 9%nat -> forallb good_line board_file = true ->
  is_9x9 (row_of <$> board_file).
Proof.
  intros Hn Hg. split; [now rewrite length_fmap|].
  apply Forall_fmap, Forall_forall. intros line Hline. simpl.
  apply forallb_Forall in Hg.
  rewrite Forall_forall in Hg. apply Hg, good_line_true in Hline as [Hl _].
  unfold row_of. now rewrite length_fmap.
Qed.

(** C2. For nine lines that are each nine digits once stripped,
    [create_board] returns a board of nine rows of nine cells, and the cell
    [board[i][j]] is [int] of the [j]-th character of the [i]-th stripped
    line; that is the [j]-th character of the line itself when the line
    starts with no blank. *)
Theorem create_board_round_trip (board_file : list str) (h : Heap) :
  length board_file = 9%nat ->
  (forall line, line ∈ board_file ->
     length (strip line) = 9%nat /\
     Forall (fun c => isdigit c = true) (strip line)) ->
  exists board h',
    create_board board_file h = (Ok board, h') /\
    (exists rs b, board_at h' board rs b /\ is_9x9 b) /\
    (forall (i j : nat) line c,
       board_file !! i = Some line -> strip line !! j = Some c ->
       exists n, int [c] = Ok n /\
                 cell board (Z.of_nat i) (Z.of_nat j) h' = (Ok (VInt n), h')) /\
    (forall (i j : nat) line c,
       board_file !! i = Some line -> lstrip line = line ->
       (j < 9)%nat -> line !! j = Some c ->
       exists n, int [c] = Ok n /\
                 cell board (Z.of_nat i) (Z.of_nat j) h' = (Ok (VInt n), h')).
Proof.
  intros Hn Hlines.
  pose proof (good_lines _ Hlines) as Hg.
  exists (length h), (built h (row_of <$> board_file)).
  split; [now apply create_board_ok|].
  split; [eexists _, _; split; [apply built_board_at | now apply is_9x9_rows]|].
  assert (forall (i j : nat) line c,
            board_file !! i = Some line -> strip line !! j = Some c ->
            exists n, int [c] = Ok n /\
              cell (length h) (Z.of_nat i) (Z.of_nat j)
                (built h (row_of <$> board_file)) =
              (Ok (VInt n), built h (row_of <$> board_file))) as Hcells.
  { intros i j line c Hi Hj.
    exists (digit_value c). split.
    - apply int_digit.
      destruct (Hlines line) as [_ Hd]; [eapply list_elem_of_lookup_2, Hi|].
      rewrite Forall_forall in Hd. eapply Hd, list_elem_of_lookup_2, Hj.
    - eapply board_at_cell; [apply built_board_at| |].
      + now rewrite list_lookup_fmap, Hi.
      + unfold row_of. now rewrite list_lookup_fmap, Hj. }
  split; [exact Hcells|].
  intros i j line c Hi Hl Hj Hc.
  apply (Hcells i j line c Hi), strip_lookup; [assumption| |assumption].
  destruct (Hlines line) as [-> _]; [eapply list_elem_of_lookup_2, Hi | exact Hj].
Qed.

Lemma create_board_round_trip_witness :
  exists board h',
    create_board solved [] = (Ok board, h') /\
    (exists rs b, board_at h' board rs b /\ is_9x9 b) /\
    (forall (i j : nat) line c,
       solved !! i = Some line -> strip line !! j = Some c ->
       exists n, int [c] = Ok n /\
                 cell board (Z.of_nat i) (Z.of_nat j) h' = (Ok (VInt n), h')) /\
    (forall (i j : nat) line c,
       solved !! i = Some line -> lstrip line = line ->
       (j < 9)%nat -> line !! j = Some c ->
       exists n, int [c] = Ok n /\
                 cell board (Z.of_nat i) (Z.of_nat j) h' = (Ok (VInt n), h')).
Proof.
  apply (create_board_round_trip solved []); [reflexivity|].
  intros line Hline.
  assert (Forall (fun line => length (strip line) = 9%nat /\
            Forall (fun c => isdigit c = true) (strip line)) solved) as Hall.
  { unfold solved. simpl. repeat constructor. }
  rewrite Forall_forall in Hall. now apply Hall.
Defined.

(** The loader sees a line only through [strip]. *)
Lemma create_board_stripped (board_file rows : list str) (h : Heap) :
  strip <$> board_file = rows ->
  length rows = 9%nat ->
  Forall (fun s => length s = 9%nat /\ Forall (fun c => isdigit c = true) s) rows ->
  create_board board_file h =
  (Ok (length h), built h ((fun s : str => digit_value <$> s) <$> rows)).
Proof.
  intros <- Hn Hrows.
  rewrite length_fmap in Hn.
  rewrite Forall_fmap in Hrows.
  rewrite <- list_fmap_compose.
  apply create_board_ok; [|assumption].
  apply forallb_Forall.
  eapply Forall_impl; [exact Hrows|].
  intros line Hline. now apply good_line_true.
Qed.

Lemma strip_pad (pads : list (str * str)) : forall rows : list str,
  length pads = length rows ->
  Forall (fun s => length s = 9%nat /\ Forall (fun c => isdigit c = true) s) rows ->
  Forall (fun p => forallb isspace p.1 = true /\ forallb isspace p.2 = true) pads ->
  strip <$> zip_with pad pads rows = rows.
Proof.
  induction pads as [|p pads IH]; intros [|s rows] Hlen Hrows Hpads;
    simpl in *; try discriminate; [reflexivity|].
  apply Forall_cons in Hrows as [[Hs Hd] Hrows].
  apply Forall_cons in Hpads as [[Hp1 Hp2] Hpads].
  f_equal.
  - apply strip_padded; try assumption.
    + intros ->. discriminate.
    + now apply forallb_Forall.
  - apply IH; [lia | assumption | assumption].
Qed.

(** C10. Lines of nine digits stay accepted when blanks are put before and
    after them, however long that makes the raw lines: the loader returns
    the board of the digits, read from the stripped text. *)
Theorem padded_lines_accepted
    (rows : list str) (pads : list (str * str)) (h : Heap) :
  length rows = 9%nat ->
  length pads = 9%nat ->
  Forall (fun s => length s = 9%nat /\ Forall (fun c => isdigit c = true) s) rows ->
  Forall (fun p => forallb isspace p.1 = true /\ forallb isspace p.2 = true) pads ->
  strip <$> zip_with pad pads rows = rows /\
  exists board h' rs,
    create_board (zip_with pad pads rows) h = (Ok board, h') /\
    board_at h' board rs ((fun s : str => digit_value <$> s) <$> rows).
Proof.
  intros Hrows Hpads Hd Hs.
  assert (strip <$> zip_with pad pads rows = rows) as E
    by (apply strip_pad; [lia | assumption | assumption]).
  split; [exact E|].
  eexists _, _, _. split.
  - now apply (create_board_stripped _ rows).
  - apply built_board_at.
Qed.

Lemma padded_lines_accepted_witness :
  Forall (fun line : str => (9 < length line)%nat /\ head line = Some " "%char)
    (zip_with pad indent solved) /\
  strip <$> zip_with pad indent solved = solved /\
  exists board h' rs,
    create_board (zip_with pad indent solved) [] = (Ok board, h') /\
    board_at h' board rs ((fun s : str => digit_value <$> s) <$> solved).
Proof.
  split.
  - unfold indent, solved. simpl. repeat constructor; simpl; lia.
  - apply (padded_lines_accepted solved indent []).
    + reflexivity.
    + reflexivity.
    + unfold solved. simpl. repeat constructor.
    + unfold indent. simpl. repeat constructor.
Defined.

(** C3. [create_board] raises [SudokuError], and so returns no board, when
    the number of lines is not nine, when the stripped length of some line
    is not nine, or when some character of a stripped line is not a
    digit. *)
Theorem create_board_rejects (board_file : list str) (h : Heap) :
  length board_file <> 9%nat \/
  (exists line, line ∈ board_file /\
     (length (strip line) <> 9%nat \/
      exists c, c ∈ strip line /\ isdigit c = false)) ->
  exists msg h', create_board board_file h = (Raise (SudokuError msg), h').
Proof.
  intros Hbad.
  destruct (forallb good_line board_file) eqn:Hg.
  - destruct Hbad as [Hn | (line & Hline & Hl)].
    + eexists _, _. now apply create_board_bad_count.
    + apply forallb_Forall in Hg. rewrite Forall_forall in Hg.
      apply Hg in Hline. apply good_line_false in Hl. congruence.
  - now apply create_board_bad_line.
Qed.

Lemma create_board_rejects_witness :
  length (take 8 solved) <> 9%nat /\
  exists msg h', create_board (take 8 solved) [] = (Raise (SudokuError msg), h').
Proof.
  assert (length (take 8 solved) <> 9%nat) as Hn by (simpl; lia).
  split; [exact Hn|].
  apply (create_board_rejects (take 8 solved) []). left. exact Hn.
Defined.

(** The four malformed inputs of the loader: eight lines, ten lines, a line
    of eight digits, a line with a letter. *)
Example create_board_rejects_examples :
  fst (create_board (take 8 solved) []) =
    Raise (SudokuError "Error: length of board must be 9") /\
  fst (create_board (solved ++ take 1 solved) []) =
    Raise (SudokuError "Error: length of board must be 9") /\
  fst (create_board (list_ascii_of_string "53467891" :: drop 1 solved) []) =
    Raise (SudokuError "Each line in the sudoku puzzle must be 9 chars long") /\
  fst (create_board (list_ascii_of_string "5346x8912" :: drop 1 solved) []) =
    Raise (SudokuError
             "Each set of characters in the sudoku puzzle must be within 0-9").
Proof. repeat split; vm_compute; reflexivity. Qed.

(** ** The block check *)

Lemma on_heap_read (w : World) l xs :
  heap w !! l = Some xs -> on_heap (read l) w = (Ok xs, w).
Proof.
  intros H. destruct w as [h g]. simpl in *.
  unfold on_heap. simpl. now rewrite (read_ok _ _ _ H).
Qed.

Lemma on_heap_getitem (w : World) l xs (i : nat) v :
  heap w !! l = Some xs -> xs !! i = Some v ->
  on_heap (getitem l (Z.of_nat i)) w = (Ok v, w).
Proof.
  intros H Hi. destruct w as [h g]. simpl in *.
  unfold on_heap. simpl. now rewrite (getitem_ok _ _ _ _ _ H Hi).
Qed.

Lemma set_of_ints (zs : list Z) : set_of (VInt <$> zs) = Ok (list_to_set zs).
Proof. induction zs as [|z zs IH]; csimpl; [reflexivity|]. now rewrite IH. Qed.

(** On a list of integers the check is the comparison of two sets. *)
Lemma check_block_ints (w : World) l (zs : list Z) :
  heap w !! l = Some (VInt <$> zs) ->
  check_block [VList l] w = (Ok (bool_decide (list_to_set zs = one_to_nine)), w).
Proof.
  intros H. unfold check_block.
  erewrite bind_ok by reflexivity.
  erewrite bind_ok by (apply on_heap_read, H).
  erewrite bind_ok by (unfold lift; now rewrite set_of_ints).
  reflexivity.
Qed.

Lemma elem_of_one_to_nine (v : Z) : v ∈ one_to_nine <-> 1 <= v <= 9.
Proof.
  unfold one_to_nine. rewrite elem_of_list_to_set, elem_of_seqZ. lia.
Qed.

(** Nine values whose set is 1..9 are 1..9 in some order. *)
Lemma nine_values_perm (zs : list Z) :
  length zs = 9%nat ->
  (forall v, 1 <= v <= 9 -> v ∈ zs) ->
  seqZ 1 9 ≡ₚ zs.
Proof.
  intros Hlen Hall.
  apply submseteq_length_Permutation.
  - apply NoDup_submseteq; [apply NoDup_seqZ|].
    intros v Hv. apply Hall. apply elem_of_seqZ in Hv. lia.
  - rewrite Hlen. reflexivity.
Qed.

Lemma set_one_to_nine_perm (zs : list Z) :
  length zs = 9%nat ->
  (list_to_set zs = one_to_nine <-> seqZ 1 9 ≡ₚ zs).
Proof.
  intros Hlen. split.
  - intros E. apply nine_values_perm; [assumption|].
    intros v Hv. apply elem_of_one_to_nine in Hv.
    rewrite <- E in Hv. now apply elem_of_list_to_set in Hv.
  - intros P. unfold one_to_nine. apply set_eq. intros v.
    rewrite !elem_of_list_to_set. now rewrite P.
Qed.

(** C4. On a block of nine integers [__check_block] returns true exactly
    when the set of the values is 1..9, and false exactly when a value is
    0, a value is repeated, or one of 1..9 is missing. *)
Theorem check_block_iff (w : World) (l : loc) (zs : list Z) :
  heap w !! l = Some (VInt <$> zs) ->
  length zs = 9%nat ->
  exists b : bool,
    check_block [VList l] w = (Ok b, w) /\
    (b = true <-> (list_to_set zs : gset Z) = list_to_set (seqZ 1 9)) /\
    (b = false <->
       0 ∈ zs \/ ~ NoDup zs \/ exists v, 1 <= v <= 9 /\ v ∉ zs).
Proof.
  intros Hl Hlen.
  exists (bool_decide (list_to_set zs = one_to_nine)).
  split; [now apply check_block_ints|]. split.
  - apply bool_decide_eq_true.
  - rewrite bool_decide_eq_false, (set_one_to_nine_perm zs Hlen). split.
    + intros Hnp.
      destruct (decide (Forall (fun v => v ∈ zs) (seqZ 1 9))) as [Hall|Hmiss].
      * exfalso. apply Hnp, nine_values_perm; [assumption|].
        intros v Hv. rewrite Forall_forall in Hall.
        apply Hall, elem_of_seqZ. lia.
      * right. right. apply not_Forall_Exists in Hmiss; [|intros v; apply _].
        apply Exists_exists in Hmiss as (v & Hv & Hnot).
        exists v. split; [|exact Hnot]. apply elem_of_seqZ in Hv. lia.
    + intros [H0 | [Hdup | (v & Hv & Hnot)]] P.
      * rewrite <- P in H0. apply elem_of_seqZ in H0. lia.
      * apply Hdup. rewrite <- P. apply NoDup_seqZ.
      * apply Hnot. rewrite <- P. apply elem_of_seqZ. lia.
Qed.

Lemma check_block_iff_witness :
  let w := {| heap := [VInt <$> [5; 3; 4; 6; 7; 8; 9; 1; 2]];
              game := {| start_puzzle := 0%nat; puzzle := None;
                         game_over := None |} |} in
  exists b : bool,
    check_block [VList 0%nat] w = (Ok b, w) /\
    (b = true <->
       (list_to_set [5; 3; 4; 6; 7; 8; 9; 1; 2] : gset Z) = list_to_set (seqZ 1 9)) /\
    (b = false <->
       0 ∈ [5; 3; 4; 6; 7; 8; 9; 1; 2] \/ ~ NoDup [5; 3; 4; 6; 7; 8; 9; 1; 2] \/
       exists v, 1 <= v <= 9 /\ v ∉ [5; 3; 4; 6; 7; 8; 9; 1; 2]).
Proof.
  intros w.
  apply (check_block_iff w 0%nat [5; 3; 4; 6; 7; 8; 9; 1; 2]); reflexivity.
Defined.

(** ** The completion check *)

Create HintDb preserves.

Section Preserves.
Context {S A B : Type}.

Lemma preserves_ret (a : A) : preserves (S := S) (ret a).
Proof. now intros s. Qed.

Lemma preserves_raise (e : exn) : preserves (S := S) (A := A) (raise e).
Proof. now intros s. Qed.

Lemma preserves_lift (r : result A) : preserves (S := S) (lift r).
Proof. now intros s. Qed.

Lemma preserves_bind (m : M S A) (k : A -> M S B) :
  preserves m -> (forall a, preserves (k a)) -> preserves (bind m k).
Proof.
  intros Hm Hk s. unfold bind.
  specialize (Hm s). destruct (m s) as [[a|e] s']; simpl in Hm; subst.
  - apply Hk.
  - reflexivity.
Qed.

Lemma preserves_for_return (xs : list A) (body : A -> M S (option B)) :
  (forall x, preserves (body x)) -> preserves (for_return xs body).
Proof.
  intros Hb. induction xs as [|x xs IH]; simpl.
  - now intros s.
  - intros s. unfold bind.
    pose proof (Hb x s) as Hx.
    destruct (body x s) as [[[v|]|e] s']; simpl in Hx; subst;
      [reflexivity | apply IH | reflexivity].
Qed.
End Preserves.

Lemma preserves_get_puzzle : preserves get_puzzle.
Proof. intros w. unfold get_puzzle. now destruct (puzzle (game w)). Qed.

Lemma preserves_as_list {S} (v : val) : preserves (S := S) (as_list v).
Proof. now destruct v. Qed.

Lemma preserves_on_heap {A} (m : M Heap A) : preserves m -> preserves (on_heap m).
Proof.
  intros Hm [h g]. unfold on_heap. simpl.
  specialize (Hm h). destruct (m h) as [r h']. simpl in *. now subst.
Qed.

Lemma preserves_read l : preserves (read l).
Proof. intros h. unfold read. now destruct (h !! l). Qed.

Lemma preserves_getitem l i : preserves (getitem l i).
Proof.
  intros h. unfold getitem, bind, read.
  destruct (h !! l) as [xs|]; [|reflexivity].
  destruct (index (length xs) i) as [k|]; [|reflexivity].
  now destruct (xs !! k).
Qed.

#[local] Hint Resolve preserves_ret preserves_raise preserves_lift
  preserves_get_puzzle preserves_as_list preserves_on_heap preserves_read
  preserves_getitem : preserves.

Lemma preserves_check_block args : preserves (check_block args).
Proof.
  unfold check_block. destruct args as [|block [|? ?]]; auto with preserves.
  repeat (apply preserves_bind; [auto with preserves | intros ?]).
  auto with preserves.
Qed.

Lemma check_row_unfold (row : Z) :
  check_row [VInt row] =
  (a <- (p <- get_puzzle ;; r <- on_heap (getitem p row) ;; ret [r]) ;;
   check_block a).
Proof. reflexivity. Qed.

Lemma preserves_check_row (row : Z) : preserves (check_row [VInt row]).
Proof.
  rewrite check_row_unfold.
  apply preserves_bind; [|intros a; apply preserves_check_block].
  repeat (apply preserves_bind; [auto with preserves | intros ?]).
  auto with preserves.
Qed.

(** [check_win] gets no further than its first call of
    [self.__check_column]: the class has no such method. *)
Lemma check_win_unfold :
  check_win =
  (r <- rows_loop ;;
   match r with
   | Some v => ret v
   | None => raise (AttributeError "_SudokuGame__check_column")
   end).
Proof. reflexivity. Qed.

Lemma preserves_check_win : preserves check_win.
Proof.
  rewrite check_win_unfold.
  apply preserves_bind.
  - apply preserves_for_return. intros row.
    apply preserves_bind; [apply preserves_check_row | auto with preserves].
  - intros [v|]; auto with preserves.
Qed.

Section CheckWin.
Variables (w : World) (p : loc) (rs : list loc) (b : list (list Z)).
Hypothesis Hp : puzzle (game w) = Some p.
Hypothesis Hb : board_at (heap w) p rs b.

Lemma check_row_ok (i : nat) (row : list Z) :
  b !! i = Some row ->
  check_row [VInt (Z.of_nat i)] w = (Ok (valid_row row), w).
Proof.
  intros Hi. rewrite check_row_unfold.
  destruct Hb as [Hl Hrows].
  destruct (Forall2_lookup_r _ _ _ _ _ Hrows Hi) as (r & Hr & Hrow).
  erewrite bind_ok; cycle 1.
  { erewrite bind_ok by (unfold get_puzzle; now rewrite Hp).
    erewrite bind_ok by
      (eapply on_heap_getitem; [exact Hl | now rewrite list_lookup_fmap, Hr]).
    reflexivity. }
  now apply check_block_ints.
Qed.

Lemma rows_from (k : nat) : forall a : nat,
  (a + k <= length b)%nat ->
  for_return (Z.of_nat <$> seq a k) (fun row =>
    ok <- check_row [VInt row] ;;
    ret (if negb ok then Some false else None)) w =
  (Ok (if forallb valid_row (take k (drop a b)) then None else Some false), w).
Proof.
  induction k as [|k IH]; intros a Ha; [reflexivity|].
  destruct (lookup_lt_is_Some_2 b a) as [row Hrow]; [lia|].
  rewrite (drop_S _ _ _ Hrow). csimpl.
  erewrite bind_ok; cycle 1.
  { erewrite bind_ok by (apply check_row_ok, Hrow). reflexivity. }
  destruct (valid_row row); simpl; [|reflexivity].
  apply IH. lia.
Qed.

(** What [check_win] does on a board of nine rows: false when some row
    fails the block check, and otherwise the [AttributeError] of the
    missing method. The state is as before either way. *)
Lemma check_win_spec :
  length b = 9%nat ->
  check_win w =
  (if forallb valid_row b
   then Raise (AttributeError "_SudokuGame__check_column")
   else Ok false, w).
Proof.
  intros Hlen. rewrite check_win_unfold. unfold rows_loop.
  change (xrange 9) with (Z.of_nat <$> seq 0 9).
  erewrite bind_ok by (apply rows_from; simpl; lia).
  rewrite drop_0, take_ge by lia.
  now destruct (forallb valid_row b).
Qed.
End CheckWin.

Lemma valid_row_no_blank (row : list Z) : 0 ∈ row -> valid_row row = false.
Proof.
  intros H0. apply bool_decide_eq_false. intros E.
  assert (0 ∈ one_to_nine) as H by (rewrite <- E; now apply elem_of_list_to_set).
  apply elem_of_one_to_nine in H. lia.
Qed.

(** C5. [check_win] returns false on every working board that has a blank
    cell, and the state is as before. *)
Theorem check_win_blank_cell
    (w : World) (p : loc) (rs : list loc) (b : list (list Z)) (i j : nat)
    (row : list Z) :
  puzzle (game w) = Some p ->
  board_at (heap w) p rs b ->
  length b = 9%nat ->
  b !! i = Some row -> row !! j = Some 0 ->
  check_win w = (Ok false, w).
Proof.
  intros Hp Hb Hlen Hi Hj.
  rewrite (check_win_spec w p rs b Hp Hb Hlen).
  replace (forallb valid_row b) with false; [reflexivity|].
  symmetry. apply forallb_false. exists row. split.
  - eapply list_elem_of_lookup_2, Hi.
  - apply valid_row_no_blank. eapply list_elem_of_lookup_2, Hj.
Qed.

Lemma check_win_blank_cell_witness :
  check_win one_blank_started = (Ok false, one_blank_started).
Proof.
  apply (check_win_blank_cell one_blank_started 10%nat (seq 11 9)
           (row_of <$> one_blank) 0%nat 0%nat (row_of (list_ascii_of_string "034678912"))).
  - reflexivity.
  - exact (built_board_at (built [] (row_of <$> one_blank)) (row_of <$> one_blank)).
  - reflexivity.
  - reflexivity.
  - reflexivity.
Defined.

(** ** Starting a game *)

Lemma on_heap_run {A} (m : M Heap A) h g r h' :
  m h = (r, h') ->
  on_heap m {| heap := h; game := g |} = (r, {| heap := h'; game := g |}).
Proof. intros H. unfold on_heap. simpl. now rewrite H. Qed.

Lemma start_unfold :
  start =
  (set_game_over false ;;;
   p <- on_heap new_list ;;
   set_puzzle p ;;;
   for_ (xrange 9) copy_row).
Proof. reflexivity. Qed.

Section Start.
Variables (h : Heap) (s : loc) (rs : list loc) (b : list (list Z)).
Hypothesis Hs : board_at h s rs b.

Let n := length h.

(** The game object once [start] has set its two attributes. *)
Let g : SudokuGame :=
  {| start_puzzle := s; puzzle := Some n; game_over := Some false |}.

Section Row.
Variables (i : nat) (r : loc) (row : list Z) (H : Heap) (refs : list val).
Hypothesis Hr : rs !! i = Some r.
Hypothesis Hrow : b !! i = Some row.
Hypothesis Hrefs : length refs = i.
Hypothesis Hold : forall l xs cur, h !! l = Some xs -> (H ++ [cur]) !! l = Some xs.
Hypothesis Hn : forall cur, (H ++ [cur]) !! n = Some (refs ++ [VList (length H)]).

Lemma copy_cell_ok (j : nat) (v : Z) (cur : list val) :
  row !! j = Some v ->
  copy_cell (Z.of_nat i) (Z.of_nat j) {| heap := H ++ [cur]; game := g |} =
  (Ok tt, {| heap := H ++ [cur ++ [VInt v]]; game := g |}).
Proof.
  intros Hj. unfold copy_cell.
  destruct Hs as [Hsl Hrows].
  pose proof (Forall2_lookup_lr _ _ _ _ _ _ Hrows Hr Hrow) as Hcells.
  erewrite bind_ok by reflexivity.
  erewrite bind_ok; cycle 1.
  { apply on_heap_run. eapply getitem_ok; [apply Hn|].
    rewrite <- Hrefs. now apply list_lookup_middle. }
  erewrite bind_ok by reflexivity.
  erewrite bind_ok by reflexivity.
  erewrite bind_ok; cycle 1.
  { apply on_heap_run. eapply getitem_ok; [apply Hold, Hsl|].
    now rewrite list_lookup_fmap, Hr. }
  erewrite bind_ok by reflexivity.
  erewrite bind_ok; cycle 1.
  { apply on_heap_run. eapply getitem_ok; [apply Hold, Hcells|].
    now rewrite list_lookup_fmap, Hj. }
  apply on_heap_run, append_newest.
Qed.

Lemma copy_cells_from (k : nat) : forall j0 : nat,
  (j0 + k <= length row)%nat ->
  for_ (Z.of_nat <$> seq j0 k) (copy_cell (Z.of_nat i))
    {| heap := H ++ [VInt <$> take j0 row]; game := g |} =
  (Ok tt, {| heap := H ++ [VInt <$> take (j0 + k) row]; game := g |}).
Proof.
  induction k as [|k IH]; intros j0 Hj0.
  - now rewrite Nat.add_0_r.
  - destruct (lookup_lt_is_Some_2 row j0) as [v Hv]; [lia|].
    csimpl. erewrite bind_ok by (apply copy_cell_ok, Hv).
    change ((VInt <$> take j0 row) ++ [VInt v])
      with ((VInt <$> take j0 row) ++ (VInt <$> [v])).
    rewrite <- fmap_app, <- (take_S_r _ _ _ Hv).
    rewrite IH by (clear -Hj0; lia).
    now replace (Datatypes.S j0 + k)%nat with (j0 + Datatypes.S k)%nat by lia.
Qed.
End Row.

(** Filling the new board leaves the lists of the old store alone. *)
Lemma old_lists_kept rows refs cur l xs :
  h !! l = Some xs ->
  (<[n := refs]> (built h rows) ++ [cur]) !! l = Some xs.
Proof.
  intros Hl. pose proof (lookup_lt_Some _ _ _ Hl) as Hlt.
  apply lookup_app_l_Some.
  rewrite list_lookup_insert_ne by (unfold n; lia).
  unfold built. now apply lookup_app_l_Some.
Qed.

Hypothesis Hb : is_9x9 b.

Lemma copy_row_ok (i : nat) (row : list Z) :
  b !! i = Some row ->
  copy_row (Z.of_nat i) {| heap := built h (take i b); game := g |} =
  (Ok tt, {| heap := built h (take (Datatypes.S i) b); game := g |}).
Proof.
  intros Hrow.
  destruct Hs as [Hsl Hrows].
  destruct (Forall2_lookup_r _ _ _ _ _ Hrows Hrow) as (r & Hr & _).
  destruct Hb as [_ Hlens].
  assert (length row = 9%nat) as Hlen.
  { rewrite Forall_forall in Hlens. eapply Hlens, list_elem_of_lookup_2, Hrow. }
  pose proof (lookup_lt_Some _ _ _ Hrow) as Hi.
  unfold copy_row.
  erewrite bind_ok by reflexivity.
  erewrite bind_ok by (apply on_heap_run; reflexivity).
  erewrite bind_ok by
    (apply on_heap_run;
     erewrite append_ok by (apply lookup_app_l_Some, built_board); reflexivity).
  rewrite insert_app_l by (rewrite length_built; lia).
  rewrite (take_S_r _ _ _ Hrow), built_snoc.
  destruct (new_row h (take i b)) as (H & HH & HlenH & HHn).
  unfold n. rewrite HH.
  change (xrange 9) with (Z.of_nat <$> seq 0 9).
  change [[]] with [VInt <$> take 0 row].
  erewrite (copy_cells_from i r row H
              (VList <$> seq (Datatypes.S (length h)) (length (take i b))))
    with (j0 := 0%nat); try eassumption.
  - now rewrite take_ge by lia.
  - now rewrite length_fmap, length_seq, length_take_le by lia.
  - intros l xs cur Hl. rewrite <- HH. now apply old_lists_kept.
  - intros cur. now apply lookup_app_l_Some.
  - lia.
Qed.

Lemma copy_rows_from (k : nat) : forall a : nat,
  (a + k <= 9)%nat ->
  for_ (Z.of_nat <$> seq a k) copy_row
    {| heap := built h (take a b); game := g |} =
  (Ok tt, {| heap := built h (take (a + k) b); game := g |}).
Proof.
  induction k as [|k IH]; intros a Ha.
  - now rewrite Nat.add_0_r.
  - destruct (lookup_lt_is_Some_2 b a) as [row Hrow];
      [destruct Hb as [-> _]; lia|].
    csimpl. erewrite bind_ok by (apply (copy_row_ok a row Hrow)).
    rewrite IH by lia.
    now replace (Datatypes.S a + k)%nat with (a + Datatypes.S k)%nat by lia.
Qed.

(** [start] on a store [h] whose start board is the 9x9 matrix [b]: a
    copy of [b] is built on top of [h], and the game points to it. *)
Lemma start_spec (g0 : SudokuGame) :
  start_puzzle g0 = s ->
  start {| heap := h; game := g0 |} =
  (Ok tt, {| heap := built h b; game := g |}).
Proof.
  intros Hg0. rewrite start_unfold.
  erewrite bind_ok by reflexivity.
  erewrite bind_ok by (apply on_heap_run; reflexivity).
  erewrite bind_ok by reflexivity.
  cbn [heap game start_puzzle puzzle game_over]. rewrite Hg0.
  change (xrange 9) with (Z.of_nat <$> seq 0 9).
  change (h ++ [[]]) with (built h (take 0 b)).
  fold n. fold g.
  rewrite (copy_rows_from 9 0) by lia.
  destruct Hb as [Hlen _].
  now rewrite take_ge by lia.
Qed.
End Start.

(** Loading nine good lines and starting the game. *)
Lemma load_start (board_file : list str) :
  forallb good_line board_file = true ->
  length board_file = 9%nat ->
  exists w, load board_file = Ok w /\ start w = (Ok tt, started board_file).
Proof.
  intros Hg Hn. unfold load, init, SudokuBoard.
  rewrite (bind_ok _ _ _ _ _ (create_board_ok [] board_file Hg Hn)).
  eexists. split; [reflexivity|].
  apply (start_spec _ 0%nat (seq 1 (length (row_of <$> board_file))));
    [apply (built_board_at []) | now apply is_9x9_rows | reflexivity].
Qed.

Lemma board_at_app (h ext : Heap) l rs b :
  board_at h l rs b -> board_at (h ++ ext) l rs b.
Proof.
  intros [Hl Hrows]. split; [now apply lookup_app_l_Some|].
  eapply Forall2_impl; [exact Hrows|].
  intros r row Hr. now apply lookup_app_l_Some.
Qed.

Lemma board_at_old (h : Heap) l rs b l' :
  board_at h l rs b -> l' ∈ l :: rs -> (l' < length h)%nat.
Proof.
  intros [Hl Hrows] Hin. apply elem_of_cons in Hin as [->|Hin].
  - eapply lookup_lt_Some, Hl.
  - apply list_elem_of_lookup in Hin as [i Hi].
    destruct (Forall2_lookup_l _ _ _ _ _ Hrows Hi) as (row & _ & Hr).
    eapply lookup_lt_Some, Hr.
Qed.

Lemma start_reset (w : World) (rs : list loc) (b : list (list Z)) :
  board_at (heap w) (start_puzzle (game w)) rs b ->
  is_9x9 b ->
  exists w', start w = (Ok tt, w') /\ reset_from w w' rs b.
Proof.
  intros Hs Hb. destruct w as [h g0]. simpl in *.
  eexists. split; [now apply (start_spec h _ rs b Hs Hb)|].
  exists (length h), (seq (Datatypes.S (length h)) (length b)). simpl.
  split; [reflexivity|]. split; [reflexivity|]. split; [reflexivity|].
  split; [apply built_board_at|].
  split; [apply (board_at_app h), Hs|].
  intros l Hl Hold.
  pose proof (board_at_old _ _ _ _ _ Hs Hold) as Hlt.
  apply elem_of_cons in Hl as [->|Hl]; [lia|].
  apply elem_of_seq in Hl. lia.
Qed.

(** What the copy being in lists of its own buys: a cell written into a
    list that is none of a board's leaves that board as it is. *)
Lemma setitem_keeps_board (h h' : Heap) s rs b (l : loc) (i : Z) (v : val) res :
  board_at h s rs b ->
  l ∉ s :: rs ->
  setitem l i v h = (res, h') ->
  board_at h' s rs b.
Proof.
  intros [Hs Hrows] Hl. unfold setitem.
  destruct (h !! l) as [xs|]; [|now intros [= _ <-]].
  destruct (index (length xs) i) as [k|]; [|now intros [= _ <-]].
  intros [= _ <-]. split.
  - rewrite list_lookup_insert_ne; [exact Hs|].
    intros ->. apply Hl. now left.
  - apply Forall2_same_length_lookup_2; [eapply Forall2_length, Hrows|].
    intros j r row Hr Hrow.
    rewrite list_lookup_insert_ne.
    + exact (Forall2_lookup_lr _ _ _ _ _ _ Hrows Hr Hrow).
    + intros ->. apply Hl. right. eapply list_elem_of_lookup_2, Hr.
Qed.

(** C7. On a game whose start board is a 9x9 matrix, [start] returns
    without raising, clears [game_over] and makes [puzzle] a copy of the
    start board in lists of its own; a second [start] right after it does
    the same. *)
Theorem start_resets_twice (w : World) (rs : list loc) (b : list (list Z)) :
  board_at (heap w) (start_puzzle (game w)) rs b ->
  is_9x9 b ->
  exists w1 w2,
    start w = (Ok tt, w1) /\ reset_from w w1 rs b /\
    start w1 = (Ok tt, w2) /\ reset_from w1 w2 rs b.
Proof.
  intros Hs Hb.
  destruct (start_reset w rs b Hs Hb) as (w1 & E1 & R1).
  assert (board_at (heap w1) (start_puzzle (game w1)) rs b) as Hs1.
  { destruct R1 as (p & rs' & _ & _ & _ & _ & H & _). exact H. }
  destruct (start_reset w1 rs b Hs1 Hb) as (w2 & E2 & R2).
  now exists w1, w2.
Qed.

Lemma load_solved : load solved = Ok solved_game.
Proof. vm_compute. reflexivity. Qed.

Lemma solved_game_board :
  board_at (heap solved_game) (start_puzzle (game solved_game))
    (seq 1 9) (row_of <$> solved) /\
  is_9x9 (row_of <$> solved).
Proof.
  split.
  - exact (built_board_at [] (row_of <$> solved)).
  - split; [reflexivity|]. vm_compute. repeat constructor.
Defined.

Lemma start_resets_twice_witness :
  exists w1 w2,
    start solved_game = (Ok tt, w1) /\
    reset_from solved_game w1 (seq 1 9) (row_of <$> solved) /\
    start w1 = (Ok tt, w2) /\
    reset_from w1 w2 (seq 1 9) (row_of <$> solved).
Proof.
  apply (start_resets_twice solved_game (seq 1 9) (row_of <$> solved));
    apply solved_game_board.
Defined.

(** Every game object the constructor returns has a 9x9 start board. *)
Lemma load_board (board_file : list str) (w : World) :
  load board_file = Ok w ->
  exists rs b,
    board_at (heap w) (start_puzzle (game w)) rs b /\ is_9x9 b /\
    puzzle (game w) = None /\ game_over (game w) = None.
Proof.
  unfold load, init, SudokuBoard. intros Hload.
  destruct (forallb good_line board_file) eqn:Hg.
  - destruct (decide (length board_file = 9%nat)) as [Hn|Hn].
    + rewrite (bind_ok _ _ _ _ _ (create_board_ok [] board_file Hg Hn)) in Hload.
      injection Hload as <-. simpl.
      eexists _, _. split; [apply (built_board_at [])|].
      split; [now apply is_9x9_rows | now split].
    + rewrite (bind_raise _ _ _ _ _ (create_board_bad_count [] board_file Hg Hn))
        in Hload.
      discriminate.
  - destruct (create_board_bad_line [] board_file Hg) as (msg & h' & E).
    rewrite (bind_raise _ _ _ _ _ E) in Hload. discriminate.
Qed.

(** [check_win] returns true on no state at all. *)
Lemma rows_loop_result (w : World) (v : bool) :
  fst (rows_loop w) = Ok (Some v) -> v = false.
Proof.
  unfold rows_loop. generalize (xrange 9). intros rows. revert w.
  induction rows as [|row rows IH]; intros w; [discriminate|].
  cbn [for_return]. unfold bind at 1 2.
  destruct (check_row [VInt row] w) as [[[|]|e] w']; cbn [negb ret fst].
  - exact (IH w').
  - now intros [= <-].
  - discriminate.
Qed.

Lemma check_win_never_true (w : World) : fst (check_win w) <> Ok true.
Proof.
  rewrite check_win_unfold. unfold bind.
  pose proof (rows_loop_result w) as Hr.
  destruct (rows_loop w) as [[[v|]|e] w']; simpl in *;
    [|discriminate|discriminate].
  rewrite (Hr v eq_refl). discriminate.
Qed.

(** C9. [start] and [check_win] leave the start board as it is: after
    either, whatever it returns or raises, [start_puzzle] is the same list
    and it holds the same cells. *)
Theorem start_puzzle_kept (w : World) (rs : list loc) (b : list (list Z)) :
  board_at (heap w) (start_puzzle (game w)) rs b ->
  is_9x9 b ->
  (start_puzzle (game (snd (start w))) = start_puzzle (game w) /\
   board_at (heap (snd (start w))) (start_puzzle (game w)) rs b) /\
  (start_puzzle (game (snd (check_win w))) = start_puzzle (game w) /\
   board_at (heap (snd (check_win w))) (start_puzzle (game w)) rs b).
Proof.
  intros Hs Hb. split.
  - destruct (start_reset w rs b Hs Hb) as (w' & E & p & rs' & _ & _ & Hsp & _ & Hb' & _).
    rewrite E. simpl. rewrite Hsp in Hb'. now split.
  - rewrite preserves_check_win. now split.
Qed.

Lemma start_puzzle_kept_witness :
  (start_puzzle (game (snd (start solved_game))) = start_puzzle (game solved_game) /\
   board_at (heap (snd (start solved_game))) (start_puzzle (game solved_game))
     (seq 1 9) (row_of <$> solved)) /\
  (start_puzzle (game (snd (check_win solved_game))) =
     start_puzzle (game solved_game) /\
   board_at (heap (snd (check_win solved_game))) (start_puzzle (game solved_game))
     (seq 1 9) (row_of <$> solved)).
Proof.
  apply (start_puzzle_kept solved_game (seq 1 9) (row_of <$> solved));
    apply solved_game_board.
Defined.

(** On every completed Sudoku the rows pass and the call of
    [__check_column] raises. *)
Lemma check_win_solution_raises (w : World) p rs b :
  puzzle (game w) = Some p ->
  board_at (heap w) p rs b ->
  length b = 9%nat ->
  spec_solved b = true ->
  check_win w = (Raise (AttributeError "_SudokuGame__check_column"), w).
Proof.
  intros Hp Hb Hlen Hsol.
  rewrite (check_win_spec w p rs b Hp Hb Hlen).
  unfold spec_solved in Hsol.
  apply andb_prop in Hsol as [Hsol _]. apply andb_prop in Hsol as [Hrows _].
  now rewrite Hrows.
Qed.

(** C1. The solved board is a completed Sudoku, and on it [check_win] does
    not return true: the nine rows pass, then the call of [__check_column]
    raises [AttributeError], and [game_over] stays false. *)
Theorem check_win_solved_raises :
  spec_solved (row_of <$> solved) = true /\
  (exists w, load solved = Ok w /\ start w = (Ok tt, solved_started)) /\
  check_win solved_started =
    (Raise (AttributeError "_SudokuGame__check_column"), solved_started) /\
  game_over (game solved_started) = Some false.
Proof.
  split; [vm_compute; reflexivity|].
  split; [apply load_start; reflexivity|].
  split; vm_compute; reflexivity.
Qed.

(** C6. On a board that is no solution but whose rows each hold 1..9,
    [check_win] does not return false: it raises [AttributeError]. The
    flag is left as it was. *)
Theorem check_win_same_rows_raises :
  spec_solved (row_of <$> same_rows) = false /\
  (exists w, load same_rows = Ok w /\ start w = (Ok tt, same_rows_started)) /\
  check_win same_rows_started =
    (Raise (AttributeError "_SudokuGame__check_column"), same_rows_started) /\
  game_over (game same_rows_started) = Some false.
Proof.
  split; [vm_compute; reflexivity|].
  split; [apply load_start; reflexivity|].
  split; vm_compute; reflexivity.
Qed.

(** ** The key handler *)

Section KeyHandler.
Variable Canvas : Type.
Variables draw_puzzle draw_cursor draw_victory : M (SudokuUI Canvas) unit.

Implicit Types ui : SudokuUI Canvas.

#[local] Abbreviation key := (key_pressed draw_puzzle draw_cursor draw_victory).

Lemma on_game_run {A} (m : M World A) ui r :
  m (ui_game ui) = (r, ui_game ui) -> on_game m ui = (r, ui).
Proof. intros H. unfold on_game. rewrite H. now destruct ui. Qed.

Lemma get_game_over_ok (w : World) (over : bool) :
  game_over (game w) = Some over -> get_game_over w = (Ok over, w).
Proof. intros H. unfold get_game_over. now rewrite H. Qed.

Lemma get_puzzle_ok (w : World) (p : loc) :
  puzzle (game w) = Some p -> get_puzzle w = (Ok p, w).
Proof. intros H. unfold get_puzzle. now rewrite H. Qed.

(** A key pressed when the game is over, when no cell is selected, or
    that is no digit, is dropped. *)
Lemma key_pressed_dropped ui (event_char : str) (over : bool) :
  game_over (game (ui_game ui)) = Some over ->
  over = true \/ row ui < 0 \/ col ui < 0 \/
    contains (list_ascii_of_string "1234567890") event_char = false ->
  key event_char ui = (Ok tt, ui).
Proof.
  intros Hover Hdrop. unfold key_pressed.
  erewrite bind_ok by (apply on_game_run, get_game_over_ok, Hover).
  destruct over; [reflexivity|]. cbv beta iota.
  erewrite bind_ok by reflexivity.
  erewrite bind_ok by reflexivity.
  destruct Hdrop as [?|[Hr|[Hc|Hd]]]; [discriminate| | |].
  - destruct (Z.leb_spec 0 (row ui)); [lia|]. now rewrite andb_false_r.
  - destruct (Z.leb_spec 0 (col ui)); [lia|]. reflexivity.
  - rewrite Hd. now rewrite andb_false_r.
Qed.

(** A key without a character, pressed with a cell selected: the empty
    string is in every string, and [int] of it raises before any write. *)
Lemma key_pressed_no_char ui :
  game_over (game (ui_game ui)) = Some false ->
  0 <= row ui -> 0 <= col ui ->
  key [] ui = (Raise ValueError, ui).
Proof.
  intros Hover Hr Hc. unfold key_pressed.
  erewrite bind_ok by (apply on_game_run, get_game_over_ok, Hover).
  cbv beta iota.
  erewrite bind_ok by reflexivity.
  erewrite bind_ok by reflexivity.
  destruct (Z.leb_spec 0 (row ui)); [|lia].
  destruct (Z.leb_spec 0 (col ui)); [|lia].
  reflexivity.
Qed.

Lemma setitem_out h l xs (i : Z) v :
  h !! l = Some xs -> Z.of_nat (length xs) <= i ->
  setitem l i v h = (Raise IndexError, h).
Proof. intros H Hi. unfold setitem. now rewrite H, index_out. Qed.

(** One digit, pressed with a cell selected outside the grid on the far
    side: indexing raises, and nothing has been written. *)
Lemma key_pressed_beyond ui (d : ascii) p rs b :
  game_over (game (ui_game ui)) = Some false ->
  puzzle (game (ui_game ui)) = Some p ->
  board_at (heap (ui_game ui)) p rs b ->
  is_9x9 b ->
  isdigit d = true ->
  0 <= row ui -> 0 <= col ui -> 9 <= row ui \/ 9 <= col ui ->
  key [d] ui = (Raise IndexError, ui).
Proof.
  intros Hover Hp [Hl Hrows] [Hlen Hlens] Hd Hr Hc Hout. unfold key_pressed.
  erewrite bind_ok by (apply on_game_run, get_game_over_ok, Hover).
  cbv beta iota.
  erewrite bind_ok by reflexivity.
  erewrite bind_ok by reflexivity.
  destruct (Z.leb_spec 0 (row ui)); [|lia].
  destruct (Z.leb_spec 0 (col ui)); [|lia].
  replace (contains (list_ascii_of_string "1234567890") [d]) with true; cycle 1.
  { clear -Hd. destruct d as [[] [] [] [] [] [] [] []]; try discriminate; reflexivity. }
  cbn [andb].
  erewrite bind_ok by (unfold lift; now rewrite int_digit).
  erewrite bind_ok by (apply on_game_run, get_puzzle_ok, Hp).
  erewrite bind_ok by reflexivity.
  pose proof (Forall2_length _ _ _ Hrows) as Hrs.
  destruct (Z.le_gt_cases 9 (row ui)) as [Hrow|Hrow].
  - apply bind_raise, on_game_run.
    destruct (ui_game ui) as [h g]. apply on_heap_run. simpl in *.
    eapply getitem_out; [exact Hl|]. rewrite length_fmap. lia.
  - assert (9 <= col ui) as Hcol by lia.
    destruct (lookup_lt_is_Some_2 rs (Z.to_nat (row ui))) as [r Hrr]; [lia|].
    destruct (Forall2_lookup_l _ _ _ _ _ Hrows Hrr) as (cells & Hcells & Hrl).
    erewrite bind_ok; cycle 1.
    { apply on_game_run. destruct (ui_game ui) as [h g]. apply on_heap_run.
      simpl in *. rewrite <- (Z2Nat.id (row ui)) by lia.
      eapply getitem_ok; [exact Hl | now rewrite list_lookup_fmap, Hrr]. }
    erewrite bind_ok by reflexivity.
    erewrite bind_ok by reflexivity.
    apply bind_raise, on_game_run.
    destruct (ui_game ui) as [h g]. apply on_heap_run. simpl in *.
    eapply setitem_out; [exact Hrl|]. rewrite length_fmap.
    rewrite Forall_forall in Hlens.
    rewrite (Hlens cells) by (eapply list_elem_of_lookup_2, Hcells). lia.
Qed.
End KeyHandler.

Lemma no_digit_not_contained (c : ascii) :
  isdigit c = false ->
  contains (list_ascii_of_string "1234567890") [c] = false.
Proof.
  destruct c as [[] [] [] [] [] [] [] []]; try discriminate; reflexivity.
Qed.

(** C8. The key handler signals no error of its own for a selection or a
    key outside the grid of a game in play. With a negative row or column
    every key is dropped, and so is, whatever the selection, a key whose
    one character is no digit: the handler returns and the state is as
    before. With row and column both at least 0, a key without a character
    raises [ValueError] out of [int], and a digit with the row or the
    column above 8 raises [IndexError] out of the list indexing; nothing
    is written in either case. *)
Theorem key_pressed_out_of_range
    (Canvas : Type) (draw_puzzle draw_cursor draw_victory : M (SudokuUI Canvas) unit)
    (ui : SudokuUI Canvas) (p : loc) (rs : list loc) (b : list (list Z)) :
  game_over (game (ui_game ui)) = Some false ->
  puzzle (game (ui_game ui)) = Some p ->
  board_at (heap (ui_game ui)) p rs b ->
  is_9x9 b ->
  let key := key_pressed draw_puzzle draw_cursor draw_victory in
  (forall event_char : str,
     row ui < 0 \/ col ui < 0 -> key event_char ui = (Ok tt, ui)) /\
  (forall c : ascii, isdigit c = false -> key [c] ui = (Ok tt, ui)) /\
  (0 <= row ui -> 0 <= col ui -> key [] ui = (Raise ValueError, ui)) /\
  (forall d : ascii,
     isdigit d = true -> 0 <= row ui -> 0 <= col ui ->
     9 <= row ui \/ 9 <= col ui ->
     key [d] ui = (Raise IndexError, ui)).
Proof.
  intros Hover Hp Hb H9 key. split; [|split; [|split]].
  - intros event_char Hneg.
    apply (key_pressed_dropped _ _ _ _ _ _ false Hover).
    destruct Hneg; auto.
  - intros c Hc. apply (key_pressed_dropped _ _ _ _ _ _ false Hover).
    right. right. right. now apply no_digit_not_contained.
  - intros Hr Hc. now apply key_pressed_no_char.
  - intros d Hd Hr Hc Hout. now apply (key_pressed_beyond _ _ _ _ _ _ p rs b).
Qed.

Lemma solved_started_board :
  game_over (game solved_started) = Some false /\
  puzzle (game solved_started) = Some 10%nat /\
  board_at (heap solved_started) 10%nat (seq 11 9) (row_of <$> solved) /\
  is_9x9 (row_of <$> solved).
Proof.
  split; [reflexivity|]. split; [reflexivity|]. split.
  - split; [reflexivity|]. vm_compute. repeat constructor.
  - apply solved_game_board.
Defined.

(** The four cases on the solved board: the key [5] with nothing selected
    and with [(9, -1)] selected is dropped; so is the key [x] on the first
    cell; a key without a character on the first cell raises [ValueError];
    the key [5] with row 9 or column 9 selected raises [IndexError]. *)
Lemma key_pressed_out_of_range_witness :
  let key := key_pressed (Canvas := unit) (ret tt) (ret tt) (ret tt) in
  key (list_ascii_of_string "5") no_selection = (Ok tt, no_selection) /\
  key (list_ascii_of_string "5") (selected 9 (-1)) = (Ok tt, selected 9 (-1)) /\
  key (list_ascii_of_string "x") (selected 0 0) = (Ok tt, selected 0 0) /\
  key [] (selected 0 0) = (Raise ValueError, selected 0 0) /\
  key (list_ascii_of_string "5") (selected 9 0) = (Raise IndexError, selected 9 0) /\
  key (list_ascii_of_string "5") (selected 0 9) = (Raise IndexError, selected 0 9).
Proof.
  pose (on := fun r c =>
    key_pressed_out_of_range unit (ret tt) (ret tt) (ret tt) (selected r c)
      10%nat (seq 11 9) (row_of <$> solved)
      (proj1 solved_started_board)
      (proj1 (proj2 solved_started_board))
      (proj1 (proj2 (proj2 solved_started_board)))
      (proj2 (proj2 (proj2 solved_started_board)))).
  intros key. split; [|split; [|split; [|split; [|split]]]].
  - apply (proj1 (on (-1) (-1))). left. reflexivity.
  - apply (proj1 (on 9 (-1))). right. reflexivity.
  - apply (proj1 (proj2 (on 0 0))). reflexivity.
  - apply (proj1 (proj2 (proj2 (on 0 0)))); discriminate.
  - apply (proj2 (proj2 (proj2 (on 9 0)))).
    + reflexivity.
    + discriminate.
    + discriminate.
    + left. discriminate.
  - apply (proj2 (proj2 (proj2 (on 0 9)))).
    + reflexivity.
    + discriminate.
    + discriminate.
    + right. discriminate.
Defined.

(** With row and column [-1], outside the grid, the key [5] is dropped
    without any exception and without a write. *)
Lemma key_pressed_no_selection_silent :
  row no_selection = -1 /\ col no_selection = -1 /\
  key_5 no_selection = (Ok tt, no_selection) /\
  ~ (exists e, fst (key_5 no_selection) = Raise e).
Proof.
  split; [reflexivity|]. split; [reflexivity|].
  assert (key_5 no_selection = (Ok tt, no_selection)) as E
    by (vm_compute; reflexivity).
  split; [exact E|]. rewrite E. intros [e He]. discriminate.
Qed.

(** The key [1] on the first cell of the solved board: the 5 of the working
    board becomes 1, the start board keeps its 5, the selection is dropped,
    and [check_win] now fails on the first row, so nothing is raised. The
    key [5] with row 9 selected raises and writes nothing. *)
Example key_pressed_examples :
  (exists ui,
     key_1 (selected 0 0) = (Ok tt, ui) /\
     row ui = -1 /\ col ui = -1 /\
     cell 10%nat 0 0 (heap (ui_game ui)) = (Ok (VInt 1), heap (ui_game ui)) /\
     cell 0%nat 0 0 (heap (ui_game ui)) = (Ok (VInt 5), heap (ui_game ui)) /\
     check_win (ui_game ui) = (Ok false, ui_game ui)) /\
  key_5 (selected 9 0) = (Raise IndexError, selected 9 0) /\
  key_5 (selected 0 9) = (Raise IndexError, selected 0 9).
Proof.
  split; [eexists; repeat split; vm_compute; reflexivity|].
  split; vm_compute; reflexivity.
Qed.

(** * More properties *)

(** ** The loader: which error, and what it leaves in the store *)

Lemma for_app_ok {S X} (xs ys : list X) (body : X -> M S unit) (s s' : S) :
  for_ xs body s = (Ok tt, s') ->
  for_ (xs ++ ys) body s = for_ ys body s'.
Proof.
  revert s. induction xs as [|x xs IH]; intros s; simpl.
  - now intros [= <-].
  - unfold bind. destruct (body x s) as [[[]|e] s1]; [apply IH | discriminate].
Qed.

Lemma first_bad_split {X} (f : X -> bool) (xs : list X) :
  forallb f xs = false ->
  exists pre bad post,
    xs = pre ++ bad :: post /\ forallb f pre = true /\ f bad = false.
Proof.
  induction xs as [|x xs IH]; simpl; [discriminate|].
  destruct (f x) eqn:Hx; simpl.
  - intros H. destruct (IH H) as (pre & bad & post & -> & Hpre & Hbad).
    exists (x :: pre), bad, post. simpl. now rewrite Hx.
  - intros _. now exists [], x, xs.
Qed.

Section LoaderErrors.
Variable h0 : Heap.

Lemma charac_loop_stops (chars : str) (H : Heap) (refs cur : list val) :
  H !! length h0 = Some (refs ++ [VList (length H)]) ->
  forallb isdigit chars = false ->
  exists cur',
    charac_loop (length h0) chars (H ++ [cur]) =
    (Raise (SudokuError msg_digit), H ++ [cur']).
Proof.
  intros Hb. revert cur.
  induction chars as [|c chars IH]; intros cur Hd; simpl in Hd.
  - discriminate.
  - unfold charac_loop in *. simpl.
    destruct (isdigit c) eqn:Hc; simpl in *.
    + erewrite bind_ok; cycle 1.
      { erewrite bind_ok by (eapply getitem_last, lookup_app_l_Some, Hb).
        simpl.
        erewrite bind_ok by reflexivity.
        erewrite bind_ok by (unfold lift; now rewrite int_digit).
        apply append_newest. }
      now apply IH.
    + now exists cur.
Qed.

Lemma line_body_stops (rows : list (list Z)) (line : str) :
  good_line line = false ->
  exists ext,
    line_body (length h0) line (built h0 rows) =
    (Raise (SudokuError (line_error line)), h0 ++ ext).
Proof.
  intros Hg. unfold line_body, line_error.
  destruct (length (strip line) =? 9)%nat eqn:Hlen; simpl.
  - unfold good_line in Hg. rewrite Hlen in Hg. simpl in Hg.
    erewrite bind_ok by reflexivity.
    erewrite bind_ok by
      (erewrite append_ok by (apply lookup_app_l_Some, built_board); reflexivity).
    rewrite insert_app_l by (rewrite length_built; lia).
    destruct (new_row h0 rows) as (H & HH & HlenH & Hb).
    destruct (charac_loop_stops (strip line) H _ [] Hb Hg) as [cur' E].
    rewrite HH, E. rewrite <- HH. unfold built.
    rewrite insert_app_r_alt, Nat.sub_diag by lia. simpl.
    rewrite <- app_assoc. eauto.
  - unfold built. eexists. unfold bind, new_list, raise.
    now rewrite <- app_assoc.
Qed.

Lemma line_loop_stops (pre : list str) (bad : str) (post : list str) :
  forallb good_line pre = true ->
  good_line bad = false ->
  exists ext,
    for_ (pre ++ bad :: post) (line_body (length h0)) (built h0 []) =
    (Raise (SudokuError (line_error bad)), h0 ++ ext).
Proof.
  intros Hpre Hbad.
  rewrite (for_app_ok _ _ _ _ _ (line_loop_ok h0 pre [] Hpre)).
  destruct (line_body_stops ([] ++ (row_of <$> pre)) bad Hbad) as [ext E].
  exists ext. simpl. now apply bind_raise.
Qed.
End LoaderErrors.

Lemma create_board_ok_inv (board_file : list str) (h h' : Heap) (board : loc) :
  create_board board_file h = (Ok board, h') ->
  forallb good_line board_file = true /\ length board_file = 9%nat.
Proof.
  intros E.
  destruct (forallb good_line board_file) eqn:Hg.
  - destruct (decide (length board_file = 9%nat)) as [Hn|Hn]; [now split|].
    rewrite (create_board_bad_count h board_file Hg Hn) in E. discriminate.
  - destruct (create_board_bad_line h board_file Hg) as (msg & h'' & E').
    rewrite E' in E. discriminate.
Qed.

(** X1. [create_board] returns a board exactly when there are nine lines
    and each is nine digits once stripped. *)
Theorem create_board_accepts_iff (board_file : list str) (h : Heap) :
  (exists board h', create_board board_file h = (Ok board, h')) <->
  length board_file = 9%nat /\
  forall line, line ∈ board_file ->
    length (strip line) = 9%nat /\
    Forall (fun c => isdigit c = true) (strip line).
Proof.
  split.
  - intros (board & h' & E).
    destruct (create_board_ok_inv _ _ _ _ E) as [Hg Hn].
    split; [exact Hn|]. intros line Hline.
    apply forallb_Forall in Hg. rewrite Forall_forall in Hg.
    now apply good_line_true, Hg.
  - intros [Hn Hlines]. eexists _, _.
    apply create_board_ok; [now apply good_lines | exact Hn].
Qed.

(** X2. The first line that is not nine digits decides the error, whatever
    follows it and however many lines there are: the length message when
    its stripped length is not nine, the digit message otherwise. *)
Theorem create_board_first_error
    (pre : list str) (bad : str) (post : list str) (h : Heap) :
  forallb good_line pre = true ->
  good_line bad = false ->
  fst (create_board (pre ++ bad :: post) h) =
  Raise (SudokuError
           (if (length (strip bad) =? 9)%nat then msg_digit else msg_length)).
Proof.
  intros Hpre Hbad. rewrite create_board_unfold.
  erewrite bind_ok by reflexivity.
  destruct (line_loop_stops h pre bad post Hpre Hbad) as [ext E].
  erewrite bind_raise by exact E. reflexivity.
Qed.

Lemma create_board_first_error_witness :
  fst (create_board (take 3 solved ++ list_ascii_of_string "12345678x"
                       :: list_ascii_of_string "12" :: drop 3 solved) []) =
  Raise (SudokuError msg_digit).
Proof.
  apply (create_board_first_error (take 3 solved)
           (list_ascii_of_string "12345678x")
           (list_ascii_of_string "12" :: drop 3 solved) []); reflexivity.
Defined.

(** X3. When every line is nine digits the count is checked, after the
    last line: any number of lines other than nine, none included, raises
    the count message. *)
Theorem create_board_count_error (board_file : list str) (h : Heap) :
  forallb good_line board_file = true ->
  length board_file <> 9%nat ->
  fst (create_board board_file h) = Raise (SudokuError msg_count).
Proof.
  intros Hg Hn. now rewrite (create_board_bad_count h board_file Hg Hn).
Qed.

Lemma create_board_count_error_witness :
  fst (create_board [] []) = Raise (SudokuError msg_count).
Proof.
  apply (create_board_count_error [] []); [reflexivity | discriminate].
Defined.

(** X4. Whatever the input, and also when it raises, [create_board] leaves
    every list that was in the store as it was: the store it leaves is the
    old one with new lists after it. *)
Theorem create_board_keeps_store (board_file : list str) (h : Heap) :
  exists ext, snd (create_board board_file h) = h ++ ext.
Proof.
  destruct (forallb good_line board_file) eqn:Hg.
  - destruct (decide (length board_file = 9%nat)) as [Hn|Hn].
    + rewrite (create_board_ok h board_file Hg Hn). unfold built. simpl. eauto.
    + rewrite (create_board_bad_count h board_file Hg Hn). unfold built. simpl. eauto.
  - destruct (first_bad_split _ _ Hg) as (pre & bad & post & -> & Hpre & Hbad).
    rewrite create_board_unfold.
    erewrite bind_ok by reflexivity.
    destruct (line_loop_stops h pre bad post Hpre Hbad) as [ext E].
    erewrite bind_raise by exact E. simpl. eauto.
Qed.

Lemma digit_value_range (c : ascii) :
  isdigit c = true -> 0 <= digit_value c <= 9.
Proof.
  unfold isdigit, digit_value. intros H.
  apply andb_prop in H as [H1 H2].
  apply Nat.leb_le in H1. apply Nat.leb_le in H2. lia.
Qed.

(** X5. The board [create_board] returns is made of new lists only: the
    board and its nine rows are ten distinct lists, none of which was in
    the store, and every cell is an integer from 0 to 9. *)
Theorem create_board_fresh
    (board_file : list str) (h h' : Heap) (board : loc) :
  create_board board_file h = (Ok board, h') ->
  exists rs b,
    board_at h' board rs b /\ is_9x9 b /\
    NoDup (board :: rs) /\
    Forall (fun l => (length h <= l)%nat) (board :: rs) /\
    Forall (Forall (fun n => 0 <= n <= 9)) b.
Proof.
  intros E.
  destruct (create_board_ok_inv _ _ _ _ E) as [Hg Hn].
  assert (forall line, line ∈ board_file ->
            length (strip line) = 9%nat /\
            Forall (fun c => isdigit c = true) (strip line)) as Hlines.
  { intros line Hline. apply good_line_true.
    apply forallb_Forall in Hg. rewrite Forall_forall in Hg. now apply Hg. }
  rewrite (create_board_ok h board_file Hg Hn) in E.
  injection E as <- <-.
  exists (seq (Datatypes.S (length h)) (length (row_of <$> board_file))),
         (row_of <$> board_file).
  split; [apply built_board_at|].
  split; [now apply is_9x9_rows|].
  split; [|split].
  - apply NoDup_cons. split; [|apply NoDup_seq].
    intros Hin. apply elem_of_seq in Hin. lia.
  - apply Forall_cons. split; [lia|].
    apply Forall_forall. intros l Hl. apply elem_of_seq in Hl. lia.
  - apply Forall_fmap, Forall_forall. intros line Hline. simpl.
    unfold row_of. apply Forall_fmap.
    destruct (Hlines line Hline) as [_ Hd].
    eapply Forall_impl; [exact Hd|]. intros c Hc. now apply digit_value_range.
Qed.

Lemma create_board_fresh_witness :
  exists rs b,
    board_at (built [] (row_of <$> solved)) 0%nat rs b /\ is_9x9 b /\
    NoDup (0%nat :: rs) /\
    Forall (fun l => (length (@nil (list val)) <= l)%nat) (0%nat :: rs) /\
    Forall (Forall (fun n => 0 <= n <= 9)) b.
Proof.
  apply (create_board_fresh solved [] (built [] (row_of <$> solved)) 0%nat).
  apply (create_board_ok [] solved); reflexivity.
Defined.

(** ** The checks *)

(** X6. [__check_block] does not look at the length of the block: on
    integers it is true exactly when every value is from 1 to 9 and each
    of 1..9 occurs, however often. *)
Theorem check_block_any_length (w : World) (l : loc) (zs : list Z) :
  heap w !! l = Some (VInt <$> zs) ->
  exists b : bool,
    check_block [VList l] w = (Ok b, w) /\
    (b = true <-> forall v, v ∈ zs <-> 1 <= v <= 9).
Proof.
  intros Hl. exists (bool_decide (list_to_set zs = one_to_nine)).
  split; [now apply check_block_ints|].
  rewrite bool_decide_eq_true. split.
  - intros E v. rewrite <- elem_of_one_to_nine, <- E.
    now rewrite elem_of_list_to_set.
  - intros H. apply set_eq. intros v.
    now rewrite elem_of_list_to_set, elem_of_one_to_nine.
Qed.

Lemma check_block_any_length_witness :
  let w := {| heap := [VInt <$> [1; 2; 3; 4; 5; 6; 7; 8; 9; 9; 1]];
              game := {| start_puzzle := 0%nat; puzzle := None;
                         game_over := None |} |} in
  exists b : bool,
    check_block [VList 0%nat] w = (Ok b, w) /\
    (b = true <-> forall v, v ∈ [1; 2; 3; 4; 5; 6; 7; 8; 9; 9; 1] <-> 1 <= v <= 9).
Proof.
  intros w.
  apply (check_block_any_length w 0%nat [1; 2; 3; 4; 5; 6; 7; 8; 9; 9; 1]).
  reflexivity.
Defined.

Lemma valid_row_perm (row : list Z) :
  length row = 9%nat -> (valid_row row = true <-> seqZ 1 9 ≡ₚ row).
Proof.
  intros Hlen. unfold valid_row.
  now rewrite bool_decide_eq_true, (set_one_to_nine_perm row Hlen).
Qed.

(** X7. On a 9x9 working board [check_win] looks at the rows only. When
    some row is not 1..9 in some order it returns false; when every row is,
    it raises the [AttributeError] of [__check_column], whatever the columns
    and the squares hold. The state is as before in both cases. *)
Theorem check_win_by_rows
    (w : World) (p : loc) (rs : list loc) (b : list (list Z)) :
  puzzle (game w) = Some p ->
  board_at (heap w) p rs b ->
  is_9x9 b ->
  ((exists row, row ∈ b /\ ~ seqZ 1 9 ≡ₚ row) ->
   check_win w = (Ok false, w)) /\
  ((forall row, row ∈ b -> seqZ 1 9 ≡ₚ row) ->
   check_win w = (Raise (AttributeError "_SudokuGame__check_column"), w)).
Proof.
  intros Hp Hb [Hlen Hlens].
  rewrite (check_win_spec w p rs b Hp Hb Hlen).
  rewrite Forall_forall in Hlens. split.
  - intros (row & Hrow & Hnp).
    replace (forallb valid_row b) with false; [reflexivity|].
    symmetry. apply forallb_false. exists row. split; [exact Hrow|].
    destruct (valid_row row) eqn:Hv; [|reflexivity].
    exfalso. apply Hnp. now apply valid_row_perm; [apply Hlens|].
  - intros Hall.
    replace (forallb valid_row b) with true; [reflexivity|].
    symmetry. apply forallb_Forall, Forall_forall. intros row Hrow.
    apply valid_row_perm; [now apply Hlens | now apply Hall].
Qed.

Lemma solved_started_puzzle :
  puzzle (game solved_started) = Some 10%nat /\
  board_at (heap solved_started) 10%nat (seq 11 9) (row_of <$> solved) /\
  is_9x9 (row_of <$> solved).
Proof.
  split; [reflexivity|]. split.
  - split; [reflexivity|]. vm_compute. repeat constructor.
  - split; [reflexivity|]. vm_compute. repeat constructor.
Defined.

Lemma check_win_by_rows_witness :
  ((exists row, row ∈ (row_of <$> solved) /\ ~ seqZ 1 9 ≡ₚ row) ->
   check_win solved_started = (Ok false, solved_started)) /\
  ((forall row, row ∈ (row_of <$> solved) -> seqZ 1 9 ≡ₚ row) ->
   check_win solved_started =
   (Raise (AttributeError "_SudokuGame__check_column"), solved_started)).
Proof.
  apply (check_win_by_rows solved_started 10%nat (seq 11 9) (row_of <$> solved));
    apply solved_started_puzzle.
Defined.

(** X8. On every state, well formed or not: [check_win] leaves the state
    as it found it, does not return true, and gives the same outcome when
    it is called again. *)
Theorem check_win_pure (w : World) :
  snd (check_win w) = w /\
  fst (check_win w) <> Ok true /\
  check_win (snd (check_win w)) = check_win w.
Proof.
  pose proof (preserves_check_win w) as Hw.
  split; [exact Hw|]. split; [apply check_win_never_true|]. now rewrite Hw.
Qed.

(** X9. Before [start] has run there is no [puzzle] attribute:
    [check_win] raises [AttributeError] for it, on the first row. *)
Theorem check_win_before_start (w : World) :
  puzzle (game w) = None ->
  check_win w = (Raise (AttributeError "puzzle"), w).
Proof.
  intros Hp. rewrite check_win_unfold. unfold rows_loop.
  change (xrange 9) with (0 :: seqZ 1 8). cbn [for_return].
  rewrite check_row_unfold.
  do 5 apply bind_raise.
  unfold get_puzzle. now rewrite Hp.
Qed.

Lemma check_win_before_start_witness :
  check_win solved_game = (Raise (AttributeError "puzzle"), solved_game).
Proof. apply (check_win_before_start solved_game). reflexivity. Defined.

(** ** Drawing *)

Lemma for_fmap {S X Y} (f : X -> Y) (xs : list X) (body : Y -> M S unit) (s : S) :
  for_ (f <$> xs) body s = for_ xs (fun x => body (f x)) s.
Proof.
  revert s. induction xs as [|x xs IH]; intros s; [reflexivity|].
  csimpl. unfold bind. destruct (body (f x) s) as [[[]|e] s']; [apply IH | reflexivity].
Qed.

(** A loop whose every turn adds items to the canvas and nothing else. *)
Lemma for_items {X} (xs : list X) (body : X -> M UI unit) (f : X -> list item)
    (ui : UI) :
  (forall x its, x ∈ xs ->
     body x (with_items its ui) = (Ok tt, with_items (its ++ f x) ui)) ->
  forall its,
    for_ xs body (with_items its ui) =
    (Ok tt, with_items (its ++ flat_map f xs) ui).
Proof.
  induction xs as [|x xs IH]; intros Hbody its; simpl.
  - now rewrite app_nil_r.
  - erewrite bind_ok by (apply Hbody; now left).
    rewrite IH by (intros y its' Hy; apply Hbody; now right).
    now rewrite <- app_assoc.
Qed.

Lemma on_game_getitem (ui : UI) l xs (i : nat) v :
  heap (ui_game ui) !! l = Some xs -> xs !! i = Some v ->
  on_game (on_heap (getitem l (Z.of_nat i))) ui = (Ok v, ui).
Proof.
  intros Hl Hi. apply on_game_run. now apply (on_heap_getitem _ l xs).
Qed.

Lemma deleted_gone (tag : string) (its : list item) :
  filter (has_tag tag) (filter (fun it => negb (has_tag tag it)) its) = [].
Proof.
  induction its as [|it its IH]; [reflexivity|].
  rewrite (filter_cons (fun it => negb (has_tag tag it))).
  destruct (has_tag tag it) eqn:E; simpl; [exact IH|].
  rewrite filter_cons, E. exact IH.
Qed.

Lemma deleted_twice (tag : string) (its : list item) :
  filter (fun it => negb (has_tag tag it))
    (filter (fun it => negb (has_tag tag it)) its) =
  filter (fun it => negb (has_tag tag it)) its.
Proof. apply list_filter_filter_l. tauto. Qed.

(** X10. [__draw_cursor] always returns. It touches nothing but the
    items tagged as cursor: there is one afterwards, the rectangle of the
    selected cell, when the row and the column are both at least 0, and
    none otherwise. *)
Theorem draw_cursor_spec (ui : UI) :
  exists ui',
    draw_cursor ui = (Ok tt, ui') /\
    ui_game ui' = ui_game ui /\ row ui' = row ui /\ col ui' = col ui /\
    focus (canvas ui') = focus (canvas ui) /\
    filter (fun it => negb (has_tag "cursor" it)) (items (canvas ui')) =
      filter (fun it => negb (has_tag "cursor" it)) (items (canvas ui)) /\
    filter (has_tag "cursor") (items (canvas ui')) =
      if (0 <=? row ui) && (0 <=? col ui) then [cursor_of (row ui) (col ui)]
      else [].
Proof.
  unfold draw_cursor, bind, canvas_delete, get_row, get_col, canvas_create,
    ret, set_canvas. cbn [row col canvas items focus ui_game].
  destruct ((0 <=? row ui) && (0 <=? col ui));
    eexists; (split; [reflexivity|]); cbn [row col canvas items focus ui_game];
    repeat (split; [reflexivity|]).
  - rewrite !filter_app, deleted_twice, deleted_gone.
    split; [apply app_nil_r | reflexivity].
  - rewrite deleted_twice, deleted_gone. now split.
Qed.

Lemma on_heap_ret {A} (a : A) (w : World) : on_heap (ret a) w = (Ok a, w).
Proof. now destruct w. Qed.

Lemma at_Some (b : list (list Z)) (i j : nat) :
  is_9x9 b -> (i < 9)%nat -> (j < 9)%nat ->
  exists row n, b !! i = Some row /\ row !! j = Some n /\ at_ b i j = Some n.
Proof.
  intros [Hlen Hlens] Hi Hj.
  destruct (lookup_lt_is_Some_2 b i) as [row Hrow]; [lia|].
  rewrite Forall_forall in Hlens.
  pose proof (Hlens row (list_elem_of_lookup_2 _ _ _ Hrow)) as Hr.
  destruct (lookup_lt_is_Some_2 row j) as [n Hn]; [lia|].
  exists row, n. unfold at_. now rewrite Hrow.
Qed.

Section DrawPuzzle.
Variable list_eq : loc -> loc -> M Heap bool.
Variables (ui : UI) (rs0 : list loc) (b0 : list (list Z)).
Variables (p : loc) (rs : list loc) (b : list (list Z)).
Hypothesis Hs : board_at (heap (ui_game ui)) (start_puzzle (game (ui_game ui))) rs0 b0.
Hypothesis H0 : is_9x9 b0.
Hypothesis Hp : puzzle (game (ui_game ui)) = Some p.
Hypothesis Hb : board_at (heap (ui_game ui)) p rs b.
Hypothesis H9 : is_9x9 b.

(** One cell of [__draw_puzzle]. *)
Lemma draw_cell (i j : nat) (its : list item) :
  (i < 9)%nat -> (j < 9)%nat ->
  (p <- on_game get_puzzle ;;
   pi <- on_game (on_heap (getitem p (Z.of_nat i))) ;;
   pi <- as_list pi ;;
   answer <- on_game (on_heap (getitem pi (Z.of_nat j))) ;;
   if negb (is_zero answer) then
     let x := MARGIN + Z.of_nat j * SIDE + SIDE / 2 in
     let y := MARGIN + Z.of_nat i * SIDE + SIDE / 2 in
     s <- on_game get_start_puzzle ;;
     si <- on_game (on_heap (getitem s (Z.of_nat i))) ;;
     si <- as_list si ;;
     original <- on_game (on_heap (getitem si (Z.of_nat j))) ;;
     same <- on_game (on_heap (eq_val list_eq answer original)) ;;
     let color := if same then "black"%string else "sea green"%string in
     canvas_create (text x y answer "numbers" color)
   else ret tt) (with_items its ui) =
  (Ok tt, with_items (its ++ number_at b0 b i j) ui).
Proof.
  intros Hi Hj.
  destruct (at_Some b i j H9 Hi Hj) as (row & n & Hrow & Hn & Hat).
  destruct (at_Some b0 i j H0 Hi Hj) as (row0 & n0 & Hrow0 & Hn0 & Hat0).
  destruct Hb as [Hpl Hrows]. destruct Hs as [Hsl Hrows0].
  destruct (Forall2_lookup_r _ _ _ _ _ Hrows Hrow) as (r & Hr & Hcells).
  destruct (Forall2_lookup_r _ _ _ _ _ Hrows0 Hrow0) as (r0 & Hr0 & Hcells0).
  unfold number_at. rewrite Hat, Hat0.
  erewrite bind_ok by (apply on_game_run, get_puzzle_ok, Hp).
  erewrite bind_ok by
    (eapply on_game_getitem; [exact Hpl | now rewrite list_lookup_fmap, Hr]).
  erewrite bind_ok by reflexivity.
  erewrite bind_ok by
    (eapply on_game_getitem; [exact Hcells | now rewrite list_lookup_fmap, Hn]).
  cbn [is_zero]. destruct (n =? 0); cbn [negb].
  - unfold ret. now rewrite app_nil_r.
  - cbv zeta.
    erewrite bind_ok by (apply on_game_run; reflexivity).
    erewrite bind_ok by
      (eapply on_game_getitem; [exact Hsl | now rewrite list_lookup_fmap, Hr0]).
    erewrite bind_ok by reflexivity.
    erewrite bind_ok by
      (eapply on_game_getitem; [exact Hcells0 | now rewrite list_lookup_fmap, Hn0]).
    erewrite bind_ok by (apply on_game_run, on_heap_ret).
    reflexivity.
Qed.

(** [__draw_puzzle] on two 9x9 boards: the numbers are drawn anew after
    the other items; nothing else changes. *)
Lemma draw_puzzle_ok :
  draw_puzzle list_eq ui =
  (Ok tt,
   with_items
     (filter (fun it => negb (has_tag "numbers" it)) (items (canvas ui))
        ++ numbers b0 b) ui).
Proof.
  unfold draw_puzzle.
  erewrite bind_ok by reflexivity.
  change (xrange 9) with (Z.of_nat <$> seq 0 9).
  rewrite for_fmap.
  apply (for_items (seq 0 9) _
           (fun i => flat_map (number_at b0 b i) (seq 0 9)) ui).
  intros i its Hi. apply elem_of_seq in Hi.
  rewrite for_fmap.
  apply (for_items (seq 0 9) _ (number_at b0 b i) ui).
  intros j its' Hj. apply elem_of_seq in Hj.
  apply draw_cell; lia.
Qed.
End DrawPuzzle.

Lemma filter_flat_map {X} (P : item -> bool) (f : X -> list item) (xs : list X) :
  (forall x, filter P (f x) = f x) ->
  filter P (flat_map f xs) = flat_map f xs.
Proof.
  intros Hf. induction xs as [|x xs IH]; [reflexivity|].
  simpl. now rewrite filter_app, Hf, IH.
Qed.

Lemma numbers_tagged (b0 b : list (list Z)) :
  filter (has_tag "numbers") (numbers b0 b) = numbers b0 b.
Proof.
  unfold numbers. apply filter_flat_map. intros i.
  apply filter_flat_map. intros j.
  unfold number_at. destruct (at_ b i j) as [n|]; [|reflexivity].
  destruct (at_ b0 i j) as [n0|]; [|reflexivity].
  now destruct (n =? 0).
Qed.

Lemma numbers_no_cursor (b0 b : list (list Z)) :
  filter (fun it => negb (has_tag "cursor" it)) (numbers b0 b) = numbers b0 b.
Proof.
  unfold numbers. apply (filter_flat_map (fun it => negb (has_tag "cursor" it))).
  intros i.
  apply (filter_flat_map (fun it => negb (has_tag "cursor" it))). intros j.
  unfold number_at. destruct (at_ b i j) as [n|]; [|reflexivity].
  destruct (at_ b0 i j) as [n0|]; [|reflexivity].
  now destruct (n =? 0).
Qed.

Lemma tagged_deleted (tag : string) (its : list item) :
  filter (fun it => negb (has_tag tag it)) (filter (has_tag tag) its) = [].
Proof.
  induction its as [|it its IH]; [reflexivity|].
  rewrite (filter_cons (has_tag tag)).
  destruct (has_tag tag it) eqn:E; simpl; [|exact IH].
  rewrite filter_cons, E. exact IH.
Qed.

Lemma elem_of_numbers (b0 b : list (list Z)) (it : item) :
  it ∈ numbers b0 b <->
  exists (i j : nat) (n n0 : Z),
    (i < 9)%nat /\ (j < 9)%nat /\
    at_ b i j = Some n /\ at_ b0 i j = Some n0 /\ n <> 0 /\
    it = number_of i j n n0.
Proof.
  unfold numbers. rewrite list_elem_of_In, in_flat_map. split.
  - intros (i & Hi & Hin). apply in_flat_map in Hin as (j & Hj & Hin).
    apply in_seq in Hi. apply in_seq in Hj.
    unfold number_at in Hin.
    destruct (at_ b i j) as [n|] eqn:Hn; [|destruct Hin].
    destruct (at_ b0 i j) as [n0|] eqn:Hn0; [|destruct Hin].
    destruct (Z.eqb_spec n 0) as [|Hnz]; [destruct Hin|].
    destruct Hin as [<-|[]].
    exists i, j, n, n0. repeat split; try assumption; lia.
  - intros (i & j & n & n0 & Hi & Hj & Hn & Hn0 & Hnz & ->).
    exists i. split; [apply in_seq; lia|].
    apply in_flat_map. exists j. split; [apply in_seq; lia|].
    unfold number_at. rewrite Hn, Hn0.
    destruct (Z.eqb_spec n 0); [contradiction | now left].
Qed.

(** X11. On two 9x9 boards [__draw_puzzle] returns, leaves the game, the
    selection and the items that are not numbers as they are, and draws a
    number for exactly the cells of the working board that are not 0: at
    the middle of the cell, black when the start board holds the same
    value there, sea green otherwise. *)
Theorem draw_puzzle_numbers
    (list_eq : loc -> loc -> M Heap bool) (ui : UI)
    (rs0 : list loc) (b0 : list (list Z)) (p : loc) (rs : list loc)
    (b : list (list Z)) :
  board_at (heap (ui_game ui)) (start_puzzle (game (ui_game ui))) rs0 b0 ->
  is_9x9 b0 ->
  puzzle (game (ui_game ui)) = Some p ->
  board_at (heap (ui_game ui)) p rs b ->
  is_9x9 b ->
  exists ui',
    draw_puzzle list_eq ui = (Ok tt, ui') /\
    ui_game ui' = ui_game ui /\ row ui' = row ui /\ col ui' = col ui /\
    filter (fun it => negb (has_tag "numbers" it)) (items (canvas ui')) =
      filter (fun it => negb (has_tag "numbers" it)) (items (canvas ui)) /\
    forall it,
      it ∈ filter (has_tag "numbers") (items (canvas ui')) <->
      exists (i j : nat) (n n0 : Z),
        (i < 9)%nat /\ (j < 9)%nat /\
        at_ b i j = Some n /\ at_ b0 i j = Some n0 /\ n <> 0 /\
        it = text (MARGIN + Z.of_nat j * SIDE + SIDE / 2)
                  (MARGIN + Z.of_nat i * SIDE + SIDE / 2)
                  (VInt n) "numbers"
                  (if n =? n0 then "black"%string else "sea green"%string).
Proof.
  intros Hs H0 Hp Hb H9.
  eexists. split; [now apply (draw_puzzle_ok list_eq ui rs0 b0 p rs b)|].
  cbn [with_items set_canvas ui_game row col canvas items].
  repeat (split; [reflexivity|]). split.
  - rewrite filter_app, deleted_twice.
    rewrite <- (numbers_tagged b0 b), (tagged_deleted "numbers").
    apply app_nil_r.
  - intros it. rewrite filter_app, deleted_gone, numbers_tagged. simpl.
    apply elem_of_numbers.
Qed.

Lemma draw_puzzle_numbers_witness :
  exists ui',
    draw_puzzle no_list_eq (ui_of (started one_blank) 0 0) = (Ok tt, ui') /\
    ui_game ui' = ui_game (ui_of (started one_blank) 0 0) /\
    row ui' = row (ui_of (started one_blank) 0 0) /\
    col ui' = col (ui_of (started one_blank) 0 0) /\
    filter (fun it => negb (has_tag "numbers" it)) (items (canvas ui')) =
      filter (fun it => negb (has_tag "numbers" it))
        (items (canvas (ui_of (started one_blank) 0 0))) /\
    forall it,
      it ∈ filter (has_tag "numbers") (items (canvas ui')) <->
      exists (i j : nat) (n n0 : Z),
        (i < 9)%nat /\ (j < 9)%nat /\
        at_ (row_of <$> one_blank) i j = Some n /\
        at_ (row_of <$> one_blank) i j = Some n0 /\ n <> 0 /\
        it = text (MARGIN + Z.of_nat j * SIDE + SIDE / 2)
                  (MARGIN + Z.of_nat i * SIDE + SIDE / 2)
                  (VInt n) "numbers"
                  (if n =? n0 then "black"%string else "sea green"%string).
Proof.
  apply (draw_puzzle_numbers no_list_eq (ui_of (started one_blank) 0 0)
           (seq 1 9) (row_of <$> one_blank) 10%nat (seq 11 9)
           (row_of <$> one_blank)).
  - split; [reflexivity|]. vm_compute. repeat constructor.
  - split; [reflexivity|]. vm_compute. repeat constructor.
  - reflexivity.
  - split; [reflexivity|]. vm_compute. repeat constructor.
  - split; [reflexivity|]. vm_compute. repeat constructor.
Defined.

(** ** A game in play *)

Lemma in_range_rows (board_file : list str) :
  forallb good_line board_file = true -> in_range (row_of <$> board_file).
Proof.
  intros Hg. apply Forall_fmap, Forall_forall. intros line Hline. simpl.
  apply forallb_Forall in Hg. rewrite Forall_forall in Hg.
  apply Hg, good_line_true in Hline as [_ Hd].
  unfold row_of. apply Forall_fmap.
  eapply Forall_impl; [exact Hd|]. intros c Hc. now apply digit_value_range.
Qed.

(** [start] puts a game in play, whatever the working board was. *)
Lemma start_game_at (w : World) (rs0 : list loc) (b0 : list (list Z)) :
  board_at (heap w) (start_puzzle (game w)) rs0 b0 ->
  is_9x9 b0 -> in_range b0 ->
  exists w',
    start w = (Ok tt, w') /\
    game_at w' rs0 (length (heap w)) (seq (Datatypes.S (length (heap w))) 9) b0 b0.
Proof.
  intros Hs H9 Hr. destruct w as [h g0]. cbn [heap game] in *.
  eexists. split; [now apply (start_spec h _ rs0 b0 Hs H9)|].
  pose proof (built_board_at h b0) as Hnew.
  destruct H9 as [Hlen Hlens]. rewrite Hlen in Hnew.
  unfold game_at. cbn [heap game start_puzzle puzzle game_over].
  split; [apply (board_at_app h), Hs|].
  split; [now split|]. split; [exact Hr|]. split; [reflexivity|].
  split; [exact Hnew|]. split; [now split|]. split; [exact Hr|].
  split; [|split; [|reflexivity]].
  - apply NoDup_cons. split; [|apply NoDup_seq].
    intros Hin. apply elem_of_seq in Hin. lia.
  - intros l Hl Hold.
    pose proof (board_at_old _ _ _ _ _ Hs Hold) as Hlt.
    apply elem_of_cons in Hl as [->|Hl]; [lia|].
    apply elem_of_seq in Hl. lia.
Qed.

Lemma started_game_at (board_file : list str) :
  forallb good_line board_file = true ->
  length board_file = 9%nat ->
  game_at (started board_file) (seq 1 9) 10%nat (seq 11 9)
    (row_of <$> board_file) (row_of <$> board_file).
Proof.
  intros Hg Hn.
  pose proof (is_9x9_rows _ Hn Hg) as H9.
  pose proof (built_board_at [] (row_of <$> board_file)) as Hs.
  destruct H9 as [Hlen Hlens]. rewrite Hlen in Hs.
  destruct (start_game_at
              {| heap := built [] (row_of <$> board_file);
                 game := {| start_puzzle := 0%nat; puzzle := None;
                            game_over := None |} |}
              (seq 1 9) (row_of <$> board_file) Hs (conj Hlen Hlens)
              (in_range_rows _ Hg)) as (w' & E & Hgame).
  rewrite (start_spec _ 0%nat (seq 1 9) _ Hs (conj Hlen Hlens)
             {| start_puzzle := 0%nat; puzzle := None; game_over := None |}
             eq_refl) in E.
  injection E as <-.
  cbn [heap] in Hgame. rewrite length_built, Hlen in Hgame. exact Hgame.
Qed.

Lemma board_at_insert_other (h : Heap) s rs b (l : loc) (ys : list val) :
  board_at h s rs b -> l ∉ s :: rs -> board_at (<[l := ys]> h) s rs b.
Proof.
  intros [Hs Hrows] Hl. split.
  - rewrite list_lookup_insert_ne; [exact Hs|].
    intros ->. apply Hl. now left.
  - apply Forall2_same_length_lookup_2; [eapply Forall2_length, Hrows|].
    intros j r row Hr Hrow.
    rewrite list_lookup_insert_ne.
    + exact (Forall2_lookup_lr _ _ _ _ _ _ Hrows Hr Hrow).
    + intros ->. apply Hl. right. eapply list_elem_of_lookup_2, Hr.
Qed.

(** Writing one cell of the working board of a game in play. *)
Lemma game_at_write (w : World) rs0 p rs b0 b (r c : nat) (l : loc)
    (row : list Z) (n : Z) :
  game_at w rs0 p rs b0 b ->
  rs !! r = Some l -> b !! r = Some row -> 0 <= n <= 9 ->
  game_at {| heap := <[l := <[c := VInt n]> (VInt <$> row)]> (heap w);
             game := game w |}
    rs0 p rs b0 (write b r c n).
Proof.
  intros (Hs & H0 & Hr0 & Hp & Hb & [Hlen Hlens] & Hrange & Hnd & Hdis & Hover)
    Hl Hrow Hn.
  pose proof (list_elem_of_lookup_2 _ _ _ Hl) as Hlin.
  unfold game_at. cbn [heap game].
  split; [apply board_at_insert_other; [exact Hs|]|].
  { apply Hdis. now right. }
  split; [exact H0|]. split; [exact Hr0|]. split; [exact Hp|].
  split; [|split; [|split; [|split; [exact Hnd|split; [exact Hdis|exact Hover]]]]].
  - destruct Hb as [Hpl Hrows]. split.
    + rewrite list_lookup_insert_ne; [exact Hpl|].
      intros ->. apply NoDup_cons in Hnd as [Hnot _]. contradiction.
    + apply Forall2_same_length_lookup_2.
      * unfold write. rewrite length_alter. eapply Forall2_length, Hrows.
      * intros k lk rowk Hlk Hrowk. unfold write in Hrowk.
        destruct (decide (k = r)) as [->|Hne].
        -- rewrite list_lookup_alter_eq, Hrow in Hrowk.
           injection Hrowk as <-. rewrite Hl in Hlk. injection Hlk as <-.
           rewrite list_lookup_insert_eq
             by (eapply lookup_lt_Some, (Forall2_lookup_lr _ _ _ _ _ _ Hrows Hl Hrow)).
           now rewrite list_fmap_insert.
        -- rewrite list_lookup_alter_ne in Hrowk by congruence.
           rewrite list_lookup_insert_ne.
           ++ exact (Forall2_lookup_lr _ _ _ _ _ _ Hrows Hlk Hrowk).
           ++ intros ->. apply NoDup_cons in Hnd as [_ Hnd].
              apply Hne. symmetry. eapply NoDup_lookup; eauto.
  - split; [unfold write; now rewrite length_alter|].
    unfold write. apply Forall_alter; [exact Hlens|].
    intros row' Hrow' Hlen'. now rewrite length_insert.
  - unfold in_range, write. apply Forall_alter; [exact Hrange|].
    intros row' Hrow' Hin. apply Forall_insert; [exact Hin|exact Hn].
Qed.

(** ** A key on a selected cell *)

Lemma digit_contained (d : ascii) :
  isdigit d = true ->
  contains (list_ascii_of_string "1234567890") [d] = true.
Proof.
  destruct d as [[] [] [] [] [] [] [] []]; try discriminate; reflexivity.
Qed.

Lemma draw_cursor_ok (ui : UI) :
  draw_cursor ui =
  (Ok tt,
   with_items
     (filter (fun it => negb (has_tag "cursor" it)) (items (canvas ui))
        ++ (if (0 <=? row ui) && (0 <=? col ui)
            then [cursor_of (row ui) (col ui)] else [])) ui).
Proof.
  unfold draw_cursor, bind, canvas_delete, get_row, get_col, canvas_create,
    ret, set_canvas, with_items, set_canvas.
  cbn [row col canvas items focus ui_game].
  destruct ((0 <=? row ui) && (0 <=? col ui)); [reflexivity|].
  now rewrite app_nil_r.
Qed.

Lemma on_game_setitem (ui : UI) (l : loc) (xs : list val) (c : nat) (v : val) :
  heap (ui_game ui) !! l = Some xs ->
  (c < length xs)%nat ->
  on_game (on_heap (setitem l (Z.of_nat c) v)) ui =
  (Ok tt,
   {| ui_game := {| heap := <[l := <[c := v]> xs]> (heap (ui_game ui));
                    game := game (ui_game ui) |};
      row := row ui; col := col ui; canvas := canvas ui |}).
Proof.
  intros Hl Hc. unfold on_game, on_heap, setitem.
  now rewrite Hl, index_nat.
Qed.

Section KeyWrite.
Variable list_eq : loc -> loc -> M Heap bool.
Variables (ui : UI) (rs0 : list loc) (p : loc) (rs : list loc).
Variables (b0 b : list (list Z)) (r c : nat) (d : ascii).
Hypothesis Hgame : game_at (ui_game ui) rs0 p rs b0 b.
Hypothesis Hrow : row ui = Z.of_nat r.
Hypothesis Hcol : col ui = Z.of_nat c.
Hypothesis Hr : (r < 9)%nat.
Hypothesis Hc : (c < 9)%nat.
Hypothesis Hd : isdigit d = true.

(** What a digit on a selected cell of the grid does, step by step. *)
Lemma key_write_run :
  exists w',
    game_at w' rs0 p rs b0 (write b r c (digit_value d)) /\
    on_key list_eq [d] ui =
    (if forallb valid_row (write b r c (digit_value d))
     then Raise (AttributeError "_SudokuGame__check_column") else Ok tt,
     {| ui_game := w'; row := -1; col := -1;
        canvas :=
          {| items :=
               filter (fun it => negb (has_tag "cursor" it))
                 (filter (fun it => negb (has_tag "numbers" it))
                    (items (canvas ui)))
               ++ numbers b0 (write b r c (digit_value d));
             focus := focus (canvas ui) |} |}).
Proof.
  pose proof Hgame as (Hs & H0 & Hr0 & Hp & Hb & H9 & Hrange & Hnd & Hdis & Hover).
  destruct (at_Some b r c H9 Hr Hc) as (rw & n & Hrw & Hn & _).
  destruct Hb as [Hpl Hrows].
  destruct (Forall2_lookup_r _ _ _ _ _ Hrows Hrw) as (l & Hl & Hcells).
  pose proof (game_at_write _ _ _ _ _ _ r c l rw (digit_value d) Hgame Hl Hrw
                (digit_value_range d Hd)) as Hgame'.
  eexists. split; [exact Hgame'|].
  unfold on_key, key_pressed.
  erewrite bind_ok by (apply on_game_run, get_game_over_ok, Hover).
  cbv beta iota.
  erewrite bind_ok by reflexivity.
  erewrite bind_ok by reflexivity.
  rewrite Hrow, Hcol.
  destruct (Z.leb_spec 0 (Z.of_nat c)); [|lia].
  destruct (Z.leb_spec 0 (Z.of_nat r)); [|lia].
  rewrite (digit_contained d Hd). cbn [andb].
  erewrite bind_ok by (unfold lift; now rewrite int_digit).
  erewrite bind_ok by (apply on_game_run, get_puzzle_ok, Hp).
  erewrite bind_ok by reflexivity.
  rewrite Hrow.
  erewrite bind_ok by
    (eapply on_game_getitem; [exact Hpl | now rewrite list_lookup_fmap, Hl]).
  erewrite bind_ok by reflexivity.
  erewrite bind_ok by reflexivity.
  rewrite Hcol.
  erewrite bind_ok by
    (apply (on_game_setitem ui l _ c _ Hcells);
     rewrite length_fmap; eapply lookup_lt_Some, Hn).
  erewrite bind_ok by reflexivity.
  destruct Hgame' as (Hs' & _ & _ & Hp' & Hb' & H9' & _).
  erewrite bind_ok by
    (eapply (draw_puzzle_ok list_eq _ rs0 b0 p rs); eassumption).
  erewrite bind_ok by apply draw_cursor_ok.
  cbn [with_items set_canvas ui_game row col canvas items focus andb Z.leb].
  change (0 <=? -1) with false. cbn [andb].
  rewrite app_nil_r, filter_app, numbers_no_cursor.
  pose proof (check_win_spec _ p rs _ Hp' Hb' (proj1 H9')) as Hwin.
  destruct (forallb valid_row (write b r c (digit_value d))).
  - apply bind_raise, on_game_run. exact Hwin.
  - erewrite bind_ok by (apply on_game_run; exact Hwin). reflexivity.
Qed.
End KeyWrite.

Lemma at_write (b : list (list Z)) (r c i j : nat) (v : Z) :
  is_9x9 b -> (r < 9)%nat -> (c < 9)%nat ->
  at_ (write b r c v) i j =
  if decide (i = r /\ j = c) then Some v else at_ b i j.
Proof.
  intros H9 Hr Hc. unfold at_, write.
  destruct (at_Some b r c H9 Hr Hc) as (row & n & Hrow & Hn & _).
  destruct (decide (i = r)) as [->|Hi].
  - rewrite list_lookup_alter_eq, Hrow. simpl.
    destruct (decide (j = c)) as [->|Hj].
    + rewrite decide_True by done.
      apply list_lookup_insert_eq. eapply lookup_lt_Some, Hn.
    + rewrite decide_False by tauto.
      now rewrite list_lookup_insert_ne by congruence.
  - rewrite decide_False by tauto.
    now rewrite list_lookup_alter_ne by congruence.
Qed.

Lemma filter_none (P : item -> bool) (its : list item) :
  (forall it, it ∈ its -> P it = false) -> filter P its = [].
Proof.
  induction its as [|it its IH]; intros H; [reflexivity|].
  rewrite filter_cons, (H it) by now left.
  simpl. apply IH. intros it' Hin. apply H. now right.
Qed.

Lemma numbers_not_cursor (b0 b : list (list Z)) :
  filter (has_tag "cursor") (numbers b0 b) = [].
Proof.
  apply filter_none. intros it Hin.
  apply elem_of_numbers in Hin as (i & j & n & n0 & _ & _ & _ & _ & _ & ->).
  reflexivity.
Qed.

Lemma no_numbers_left (its : list item) :
  filter (has_tag "numbers")
    (filter (fun it => negb (has_tag "cursor" it))
       (filter (fun it => negb (has_tag "numbers" it)) its)) = [].
Proof.
  apply filter_none. intros it Hin.
  apply list_elem_of_filter in Hin as [_ Hin].
  apply list_elem_of_filter in Hin as [Hin _].
  now destruct (has_tag "numbers" it).
Qed.

Lemma no_cursor_left (its : list item) :
  filter (has_tag "cursor")
    (filter (fun it => negb (has_tag "cursor" it)) its) = [].
Proof. apply deleted_gone. Qed.

(** X12. A digit pressed while a cell of the grid is selected is written
    into that cell of the working board, whether the cell is a given or
    not; every other cell and the start board are as before, and the two
    boards stay 9x9 matrices of 0..9 in separate lists. The selection is
    dropped, the numbers are drawn anew and no cursor is left. The handler
    then returns, unless every row of the board now holds 1..9: then
    [check_win] raises the [AttributeError] of [__check_column]. *)
Theorem key_writes_cell
    (list_eq : loc -> loc -> M Heap bool) (ui : UI)
    (b0 b : list (list Z)) (r c : nat) (d : ascii) :
  game_ok (ui_game ui) b0 b ->
  row ui = Z.of_nat r -> col ui = Z.of_nat c ->
  (r < 9)%nat -> (c < 9)%nat ->
  isdigit d = true ->
  exists (b' : list (list Z)) (ui' : UI),
    snd (on_key list_eq [d] ui) = ui' /\
    game_ok (ui_game ui') b0 b' /\
    (forall i j,
       at_ b' i j =
       if decide (i = r /\ j = c) then Some (digit_value d) else at_ b i j) /\
    row ui' = -1 /\ col ui' = -1 /\
    filter (has_tag "numbers") (items (canvas ui')) = numbers b0 b' /\
    filter (has_tag "cursor") (items (canvas ui')) = [] /\
    fst (on_key list_eq [d] ui) =
      if forallb valid_row b'
      then Raise (AttributeError "_SudokuGame__check_column") else Ok tt.
Proof.
  intros (rs0 & p & rs & Hgame) Hrow Hcol Hr Hc Hd.
  destruct (key_write_run list_eq ui rs0 p rs b0 b r c d Hgame Hrow Hcol Hr Hc Hd)
    as (w' & Hgame' & E).
  exists (write b r c (digit_value d)). eexists.
  rewrite E. cbn [fst snd].
  split; [reflexivity|]. cbn [ui_game row col canvas items].
  split; [now exists rs0, p, rs|].
  split; [|split; [reflexivity|split; [reflexivity|split; [|split; [|reflexivity]]]]].
  - intros i j. apply at_write; [|assumption|assumption].
    now destruct Hgame as (_ & _ & _ & _ & _ & H9 & _).
  - now rewrite filter_app, numbers_tagged, no_numbers_left.
  - now rewrite filter_app, numbers_not_cursor, no_cursor_left.
Qed.

Lemma one_blank_ui_ok :
  game_ok (ui_game one_blank_ui) (row_of <$> one_blank) (row_of <$> one_blank).
Proof.
  exists (seq 1 9), 10%nat, (seq 11 9).
  apply (started_game_at one_blank); reflexivity.
Defined.

Lemma key_writes_cell_witness :
  exists (b' : list (list Z)) (ui' : UI),
    snd (on_key no_list_eq [("5")%char] one_blank_ui) = ui' /\
    game_ok (ui_game ui') (row_of <$> one_blank) b' /\
    (forall i j,
       at_ b' i j =
       if decide (i = 0%nat /\ j = 0%nat) then Some (digit_value "5")
       else at_ (row_of <$> one_blank) i j) /\
    row ui' = -1 /\ col ui' = -1 /\
    filter (has_tag "numbers") (items (canvas ui')) =
      numbers (row_of <$> one_blank) b' /\
    filter (has_tag "cursor") (items (canvas ui')) = [] /\
    fst (on_key no_list_eq [("5")%char] one_blank_ui) =
      if forallb valid_row b'
      then Raise (AttributeError "_SudokuGame__check_column") else Ok tt.
Proof.
  apply (key_writes_cell no_list_eq one_blank_ui (row_of <$> one_blank)
           (row_of <$> one_blank) 0%nat 0%nat ("5")%char);
    [apply one_blank_ui_ok | reflexivity | reflexivity | lia | lia | reflexivity].
Defined.

(** X13. The game cannot be won. When the digit completes the board, so
    that every row, column and square holds 1..9, the key handler writes
    it, redraws, and then raises [AttributeError] out of [check_win]:
    [game_over] is still false and nothing but the numbers is drawn. *)
Theorem key_completing_raises
    (list_eq : loc -> loc -> M Heap bool) (ui : UI)
    (b0 b : list (list Z)) (r c : nat) (d : ascii) :
  game_ok (ui_game ui) b0 b ->
  row ui = Z.of_nat r -> col ui = Z.of_nat c ->
  (r < 9)%nat -> (c < 9)%nat ->
  isdigit d = true ->
  spec_solved (write b r c (digit_value d)) = true ->
  fst (on_key list_eq [d] ui) =
    Raise (AttributeError "_SudokuGame__check_column") /\
  game_ok (ui_game (snd (on_key list_eq [d] ui))) b0
    (write b r c (digit_value d)) /\
  game_over (game (ui_game (snd (on_key list_eq [d] ui)))) = Some false /\
  items (canvas (snd (on_key list_eq [d] ui))) =
    filter (fun it => negb (has_tag "cursor" it))
      (filter (fun it => negb (has_tag "numbers" it)) (items (canvas ui)))
    ++ numbers b0 (write b r c (digit_value d)).
Proof.
  intros (rs0 & p & rs & Hgame) Hrow Hcol Hr Hc Hd Hsol.
  destruct (key_write_run list_eq ui rs0 p rs b0 b r c d Hgame Hrow Hcol Hr Hc Hd)
    as (w' & Hgame' & E).
  rewrite E. cbn [fst snd].
  unfold spec_solved in Hsol.
  apply andb_prop in Hsol as [Hsol _]. apply andb_prop in Hsol as [Hrows _].
  rewrite Hrows. cbn [ui_game canvas items].
  split; [reflexivity|]. split; [now exists rs0, p, rs|].
  split; [now destruct Hgame' as (_ & _ & _ & _ & _ & _ & _ & _ & _ & Hover)|].
  reflexivity.
Qed.

Lemma key_completing_raises_witness :
  fst (on_key no_list_eq [("5")%char] one_blank_ui) =
    Raise (AttributeError "_SudokuGame__check_column") /\
  game_ok (ui_game (snd (on_key no_list_eq [("5")%char] one_blank_ui)))
    (row_of <$> one_blank)
    (write (row_of <$> one_blank) 0 0 (digit_value "5")) /\
  game_over (game (ui_game (snd (on_key no_list_eq [("5")%char] one_blank_ui)))) =
    Some false /\
  items (canvas (snd (on_key no_list_eq [("5")%char] one_blank_ui))) =
    filter (fun it => negb (has_tag "cursor" it))
      (filter (fun it => negb (has_tag "numbers" it))
         (items (canvas one_blank_ui)))
    ++ numbers (row_of <$> one_blank)
         (write (row_of <$> one_blank) 0 0 (digit_value "5")).
Proof.
  apply (key_completing_raises no_list_eq one_blank_ui (row_of <$> one_blank)
           (row_of <$> one_blank) 0%nat 0%nat ("5")%char);
    [apply one_blank_ui_ok | reflexivity | reflexivity | lia | lia
    | reflexivity | vm_compute; reflexivity].
Defined.


(** X14. While [game_over] is true the key handler drops every key,
    whatever the selection: it returns and changes nothing. *)
Theorem key_ignored_when_over
    (Canvas : Type) (draw_puzzle draw_cursor draw_victory : M (SudokuUI Canvas) unit)
    (ui : SudokuUI Canvas) (event_char : str) :
  game_over (game (ui_game ui)) = Some true ->
  key_pressed draw_puzzle draw_cursor draw_victory event_char ui = (Ok tt, ui).
Proof.
  intros Hover.
  apply (key_pressed_dropped _ _ _ _ _ _ true Hover). now left.
Qed.

Lemma key_ignored_when_over_witness :
  let ui : SudokuUI unit :=
    {| ui_game :=
         {| heap := heap solved_started;
            game := {| start_puzzle := 0%nat; puzzle := Some 10%nat;
                       game_over := Some true |} |};
       row := 0; col := 0; canvas := tt |} in
  key_pressed (ret tt) (ret tt) (ret tt) (list_ascii_of_string "1") ui =
  (Ok tt, ui).
Proof.
  intros ui.
  apply (key_ignored_when_over unit (ret tt) (ret tt) (ret tt) ui). reflexivity.
Defined.

(** X15. The test [event.char in "1234567890"] holds for the empty
    string, which is what a key without a character sends: with a cell
    selected, [int] of it raises [ValueError]; nothing is written. *)
Theorem key_without_char_raises
    (Canvas : Type) (draw_puzzle draw_cursor draw_victory : M (SudokuUI Canvas) unit)
    (ui : SudokuUI Canvas) :
  game_over (game (ui_game ui)) = Some false ->
  0 <= row ui -> 0 <= col ui ->
  key_pressed draw_puzzle draw_cursor draw_victory [] ui = (Raise ValueError, ui).
Proof.
  intros Hover Hr Hc. unfold key_pressed.
  erewrite bind_ok by (apply on_game_run, get_game_over_ok, Hover).
  cbv beta iota.
  erewrite bind_ok by reflexivity.
  erewrite bind_ok by reflexivity.
  destruct (Z.leb_spec 0 (row ui)); [|lia].
  destruct (Z.leb_spec 0 (col ui)); [|lia].
  reflexivity.
Qed.

Lemma key_without_char_raises_witness :
  key_pressed (ret tt) (ret tt) (ret tt) [] (selected 0 0) =
  (Raise ValueError, selected 0 0).
Proof.
  apply (key_without_char_raises unit (ret tt) (ret tt) (ret tt) (selected 0 0));
    [reflexivity | discriminate | discriminate].
Defined.

(** ** A click *)

Lemma getitem_index (h : Heap) (l : loc) (xs : list val) (i : Z) :
  h !! l = Some xs ->
  getitem l i h =
  (match index (length xs) i with
   | Some k => match xs !! k with Some v => Ok v | None => Raise IndexError end
   | None => Raise IndexError
   end, h).
Proof.
  intros Hl. unfold getitem.
  rewrite (bind_ok _ _ _ _ _ (read_ok _ _ _ Hl)).
  destruct (index (length xs) i) as [k|]; [|reflexivity].
  now destruct (xs !! k).
Qed.

Lemma on_game_getitem_index (ui : UI) (l : loc) (xs : list val) (i : Z) :
  heap (ui_game ui) !! l = Some xs ->
  on_game (on_heap (getitem l i)) ui =
  (match index (length xs) i with
   | Some k => match xs !! k with Some v => Ok v | None => Raise IndexError end
   | None => Raise IndexError
   end, ui).
Proof.
  intros Hl. apply on_game_run.
  destruct (ui_game ui) as [h g]. apply on_heap_run. now apply getitem_index.
Qed.

Lemma index_lt (n : nat) (i : Z) (k : nat) :
  index n i = Some k -> i < Z.of_nat n.
Proof.
  unfold index. destruct (Z.ltb_spec i 0) as [Hneg|Hpos].
  - intros _. lia.
  - destruct (_ && _) eqn:E; [|discriminate].
    apply andb_prop in E as [_ E]. apply Z.ltb_lt in E. intros _. exact E.
Qed.

Lemma cell_of_pixel (z : Z) (k : nat) :
  MARGIN + Z.of_nat k * SIDE <= z < MARGIN + (Z.of_nat k + 1) * SIDE ->
  (z - MARGIN) / SIDE = Z.of_nat k.
Proof.
  unfold MARGIN, SIDE. intros H. symmetry.
  apply (Z.div_unique_pos _ _ _ (z - 20 - 50 * Z.of_nat k)); lia.
Qed.

Lemma focus_step (ui : UI) (x y : Z) :
  (if inside x y then focus_set else ret tt) ui = (Ok tt, clicked ui x y).
Proof.
  unfold clicked. destruct (inside x y); [reflexivity|].
  now destruct ui as [? ? ? []].
Qed.

Section Click.
Variables (ui : UI) (rs0 : list loc) (p : loc) (rs : list loc).
Variables (b0 b : list (list Z)).
Hypothesis Hgame : game_at (ui_game ui) rs0 p rs b0 b.

(** A click whose row and column index the board, counted from the end
    when negative, on a cell that holds [n]. *)
Lemma cell_clicked_run (x y : Z) (r c : nat) (n : Z) :
  index 9 ((y - MARGIN) / SIDE) = Some r ->
  index 9 ((x - MARGIN) / SIDE) = Some c ->
  at_ b r c = Some n ->
  cell_clicked x y ui =
  draw_cursor
    {| ui_game := ui_game ui;
       row := fst (select ui ((y - MARGIN) / SIDE) ((x - MARGIN) / SIDE) n);
       col := snd (select ui ((y - MARGIN) / SIDE) ((x - MARGIN) / SIDE) n);
       canvas := canvas (clicked ui x y) |}.
Proof.
  intros Hy Hx Hn.
  destruct Hgame as (_ & _ & _ & Hp & [Hpl Hrows] & [Hlen Hlens] & _ & _ & _ & Hover).
  unfold at_ in Hn. destruct (b !! r) as [rw|] eqn:Hrw; [|discriminate].
  destruct (Forall2_lookup_r _ _ _ _ _ Hrows Hrw) as (l & Hl & Hcells).
  assert (length rw = 9%nat) as Hrwlen.
  { rewrite Forall_forall in Hlens. eapply Hlens, list_elem_of_lookup_2, Hrw. }
  pose proof (Forall2_length _ _ _ Hrows) as Hrslen.
  unfold cell_clicked.
  erewrite bind_ok by (apply on_game_run, get_game_over_ok, Hover).
  cbv beta iota zeta.
  fold (inside x y).
  rewrite (bind_ok _ _ _ _ _ (focus_step ui x y)).
  erewrite bind_ok by reflexivity.
  erewrite bind_ok by reflexivity.
  unfold select. cbn [row col clicked].
  destruct (((y - MARGIN) / SIDE =? row ui) && ((x - MARGIN) / SIDE =? col ui)).
  - erewrite bind_ok by reflexivity. reflexivity.
  - destruct (n =? 0) eqn:En;
      (erewrite bind_ok;
       [| erewrite bind_ok by (apply on_game_run, get_puzzle_ok, Hp);
          erewrite bind_ok by
            (erewrite (on_game_getitem_index _ p) by exact Hpl;
             rewrite length_fmap, Hrslen, Hlen, Hy, list_lookup_fmap, Hl;
             reflexivity);
          erewrite bind_ok by reflexivity;
          erewrite bind_ok by
            (erewrite (on_game_getitem_index _ l) by exact Hcells;
             rewrite length_fmap, Hrwlen, Hx, list_lookup_fmap, Hn;
             reflexivity);
          cbn [is_zero]; rewrite En; reflexivity ]);
      reflexivity.
Qed.
End Click.

(** X16. A click on a cell of the grid, in a game in play. When the cell
    is the selected one the selection is dropped; otherwise the cell
    becomes the selection when it holds 0, and the selection stays as it
    was when the cell holds a number, given or typed. The game is not
    touched, the cursor is drawn anew for the selection, and the canvas
    has the focus after a click strictly inside the grid. *)
Theorem click_selects
    (ui : UI) (b0 b : list (list Z)) (x y : Z) (r c : nat) (n : Z) :
  game_ok (ui_game ui) b0 b ->
  (r < 9)%nat -> (c < 9)%nat ->
  MARGIN + Z.of_nat r * SIDE <= y < MARGIN + (Z.of_nat r + 1) * SIDE ->
  MARGIN + Z.of_nat c * SIDE <= x < MARGIN + (Z.of_nat c + 1) * SIDE ->
  at_ b r c = Some n ->
  exists ui',
    cell_clicked x y ui = (Ok tt, ui') /\
    ui_game ui' = ui_game ui /\
    (row ui', col ui') =
      (if (Z.of_nat r =? row ui) && (Z.of_nat c =? col ui) then (-1, -1)
       else if n =? 0 then (Z.of_nat r, Z.of_nat c)
       else (row ui, col ui)) /\
    filter (has_tag "cursor") (items (canvas ui')) =
      (if (0 <=? row ui') && (0 <=? col ui') then [cursor_of (row ui') (col ui')]
       else []) /\
    filter (fun it => negb (has_tag "cursor" it)) (items (canvas ui')) =
      filter (fun it => negb (has_tag "cursor" it)) (items (canvas ui)) /\
    focus (canvas ui') = (if inside x y then true else focus (canvas ui)).
Proof.
  intros (rs0 & p & rs & Hgame) Hr Hc Hy Hx Hn.
  apply cell_of_pixel in Hy. apply cell_of_pixel in Hx.
  eexists. split.
  - rewrite (cell_clicked_run ui rs0 p rs b0 b Hgame x y r c n);
      [apply draw_cursor_ok | rewrite Hy; now apply index_nat
      | rewrite Hx; now apply index_nat | exact Hn].
  - rewrite Hy, Hx. unfold select.
    cbn [with_items set_canvas ui_game row col canvas items focus clicked].
    split; [reflexivity|].
    split; [now destruct ((Z.of_nat r =? row ui) && (Z.of_nat c =? col ui)),
                         (n =? 0)|].
    rewrite !filter_app, deleted_gone, deleted_twice.
    split; [|split; [|reflexivity]].
    + simpl. now destruct (_ && _).
    + destruct (_ && _); [|apply app_nil_r]. apply app_nil_r.
Qed.

Lemma solved_ui_ok :
  game_ok (ui_game (ui_of solved_started 0 0)) (row_of <$> solved) (row_of <$> solved).
Proof.
  exists (seq 1 9), 10%nat, (seq 11 9).
  apply (started_game_at solved); reflexivity.
Defined.

Lemma click_selects_witness :
  exists ui',
    cell_clicked 30 80 one_blank_ui = (Ok tt, ui') /\
    ui_game ui' = ui_game one_blank_ui /\
    (row ui', col ui') =
      (if (Z.of_nat 1 =? row one_blank_ui) && (Z.of_nat 0 =? col one_blank_ui)
       then (-1, -1)
       else if 6 =? 0 then (Z.of_nat 1, Z.of_nat 0)
       else (row one_blank_ui, col one_blank_ui)) /\
    filter (has_tag "cursor") (items (canvas ui')) =
      (if (0 <=? row ui') && (0 <=? col ui') then [cursor_of (row ui') (col ui')]
       else []) /\
    filter (fun it => negb (has_tag "cursor" it)) (items (canvas ui')) =
      filter (fun it => negb (has_tag "cursor" it)) (items (canvas one_blank_ui)) /\
    focus (canvas ui') = (if inside 30 80 then true else focus (canvas one_blank_ui)).
Proof.
  apply (click_selects one_blank_ui (row_of <$> one_blank) (row_of <$> one_blank)
           30 80 1%nat 0%nat 6);
    [apply one_blank_ui_ok | lia | lia | unfold MARGIN, SIDE; lia
    | unfold MARGIN, SIDE; lia | reflexivity].
Defined.

(** X17. A click at or beyond the last grid line on the right, at any
    height, or at or beyond the last grid line at the bottom, at any
    distance from the left, in a game in play whose selected row and
    column are at most 8: the list indexing raises [IndexError], the
    handler has changed nothing, and the cursor is not drawn anew. *)
Theorem click_beyond_grid_raises
    (ui : UI) (b0 b : list (list Z)) (x y : Z) :
  game_ok (ui_game ui) b0 b ->
  row ui <= 8 -> col ui <= 8 ->
  WIDTH - MARGIN <= x \/ HEIGHT - MARGIN <= y ->
  cell_clicked x y ui = (Raise IndexError, ui).
Proof.
  intros (rs0 & p & rs & Hgame) Hrow Hcol Hout.
  destruct Hgame as (_ & _ & _ & Hp & [Hpl Hrows] & [Hlen Hlens] & _ & _ & _ & Hover).
  pose proof (Forall2_length _ _ _ Hrows) as Hrslen.
  assert (9 <= (x - MARGIN) / SIDE \/ 9 <= (y - MARGIN) / SIDE) as Hbig.
  { unfold WIDTH, HEIGHT, WIDTH, MARGIN, SIDE in *.
    destruct Hout; [left|right]; apply Z.div_le_lower_bound; lia. }
  assert (inside x y = false) as Hin.
  { unfold inside, WIDTH, HEIGHT, WIDTH, MARGIN, SIDE in *.
    destruct Hout.
    - destruct (Z.ltb_spec x (20 * 2 + 50 * 9 - 20)); [lia|].
      now rewrite andb_false_r.
    - destruct (Z.ltb_spec y (20 * 2 + 50 * 9 - 20)); [lia|].
      now rewrite !andb_false_r. }
  assert (clicked ui x y = ui) as Hsame.
  { unfold clicked. rewrite Hin. now destruct ui as [? ? ? []]. }
  unfold cell_clicked.
  erewrite bind_ok by (apply on_game_run, get_game_over_ok, Hover).
  cbv beta iota zeta. fold (inside x y).
  rewrite (bind_ok _ _ _ _ _ (focus_step ui x y)). rewrite Hsame.
  erewrite bind_ok by reflexivity.
  erewrite bind_ok by reflexivity.
  replace (((y - MARGIN) / SIDE =? row ui) && ((x - MARGIN) / SIDE =? col ui))
    with false; cycle 1.
  { symmetry. apply andb_false_iff.
    destruct Hbig; [right|left]; apply Z.eqb_neq; lia. }
  apply bind_raise.
  erewrite bind_ok by (apply on_game_run, get_puzzle_ok, Hp).
  destruct (index 9 ((y - MARGIN) / SIDE)) as [r|] eqn:Hr.
  - pose proof (index_lt _ _ _ Hr) as Hlt.
    pose proof (index_Some _ _ _ Hr) as Hr9.
    destruct (lookup_lt_is_Some_2 rs r) as [l Hl]; [lia|].
    destruct (Forall2_lookup_l _ _ _ _ _ Hrows Hl) as (rw & Hrw & Hcells).
    assert (length rw = 9%nat) as Hrwlen.
    { rewrite Forall_forall in Hlens. eapply Hlens, list_elem_of_lookup_2, Hrw. }
    erewrite bind_ok by
      (erewrite (on_game_getitem_index _ p) by exact Hpl;
       rewrite length_fmap, Hrslen, Hlen, Hr, list_lookup_fmap, Hl; reflexivity).
    erewrite bind_ok by reflexivity.
    apply bind_raise.
    erewrite (on_game_getitem_index _ l) by exact Hcells.
    rewrite length_fmap, Hrwlen.
    rewrite index_out; [reflexivity|]. simpl. lia.
  - apply bind_raise.
    erewrite (on_game_getitem_index _ p) by exact Hpl.
    now rewrite length_fmap, Hrslen, Hlen, Hr.
Qed.

(** On the right of the grid: beside a row, above the first row (where
    the row index is -1, the last row), and far above (row index -10,
    where the first indexing raises); and below the grid in the left
    margin. *)
Lemma click_beyond_grid_raises_witness :
  cell_clicked 480 100 one_blank_ui = (Raise IndexError, one_blank_ui) /\
  cell_clicked 480 5 one_blank_ui = (Raise IndexError, one_blank_ui) /\
  cell_clicked 480 (-480) one_blank_ui = (Raise IndexError, one_blank_ui) /\
  cell_clicked 5 480 one_blank_ui = (Raise IndexError, one_blank_ui).
Proof.
  pose (click := fun x y =>
    click_beyond_grid_raises one_blank_ui (row_of <$> one_blank)
      (row_of <$> one_blank) x y one_blank_ui_ok).
  split; [|split; [|split]].
  - apply (click 480 100); [discriminate | discriminate | left; discriminate].
  - apply (click 480 5); [discriminate | discriminate | left; discriminate].
  - apply (click 480 (-480)); [discriminate | discriminate | left; discriminate].
  - apply (click 5 480); [discriminate | discriminate | right; discriminate].
Defined.

(** X18. A click in the left margin, in the band of a row of the grid of
    a game in play, is taken at column -1, which indexes the last cell of
    the row. When that row with column -1 is the selection already, the
    selection is dropped. Otherwise, when the last cell of the row is
    blank the selection becomes that row with column -1, and when it holds
    a number the selection stays. The game, the focus and the other items
    are as before; the cursor is drawn anew for the selection, and none is
    drawn when the selection was dropped or became column -1. *)
Theorem click_left_margin
    (ui : UI) (b0 b : list (list Z)) (x y : Z) (r : nat) (n : Z) :
  game_ok (ui_game ui) b0 b ->
  (r < 9)%nat ->
  MARGIN + Z.of_nat r * SIDE <= y < MARGIN + (Z.of_nat r + 1) * SIDE ->
  MARGIN - SIDE <= x < MARGIN ->
  at_ b r 8 = Some n ->
  exists ui',
    cell_clicked x y ui = (Ok tt, ui') /\
    ui_game ui' = ui_game ui /\
    (row ui', col ui') =
      (if (Z.of_nat r =? row ui) && (-1 =? col ui) then (-1, -1)
       else if n =? 0 then (Z.of_nat r, -1)
       else (row ui, col ui)) /\
    filter (has_tag "cursor") (items (canvas ui')) =
      (if (0 <=? row ui') && (0 <=? col ui') then [cursor_of (row ui') (col ui')]
       else []) /\
    ((Z.of_nat r = row ui /\ col ui = -1) \/ n = 0 ->
     filter (has_tag "cursor") (items (canvas ui')) = []) /\
    filter (fun it => negb (has_tag "cursor" it)) (items (canvas ui')) =
      filter (fun it => negb (has_tag "cursor" it)) (items (canvas ui)) /\
    focus (canvas ui') = focus (canvas ui).
Proof.
  intros (rs0 & p & rs & Hgame) Hr Hy Hx Hn.
  apply cell_of_pixel in Hy.
  assert ((x - MARGIN) / SIDE = -1) as Hc.
  { unfold MARGIN, SIDE in *. symmetry.
    apply (Z.div_unique_pos _ _ _ (x + 30)); lia. }
  assert (inside x y = false) as Hin.
  { unfold inside, MARGIN in *.
    destruct (Z.ltb_spec 20 x); [lia|]. reflexivity. }
  eexists. split.
  - rewrite (cell_clicked_run ui rs0 p rs b0 b Hgame x y r 8 n);
      [apply draw_cursor_ok | rewrite Hy; now apply index_nat
      | rewrite Hc; reflexivity | exact Hn].
  - rewrite Hy, Hc. unfold select.
    cbn [with_items set_canvas ui_game row col canvas items focus clicked].
    rewrite Hin.
    split; [reflexivity|].
    split; [now destruct ((Z.of_nat r =? row ui) && (-1 =? col ui)), (n =? 0)|].
    rewrite !filter_app, deleted_gone, deleted_twice.
    split; [|split; [|split; [|reflexivity]]].
    + simpl. now destruct (_ && _).
    + intros [[Er Ec]|En].
      * rewrite <- Er, Ec, Z.eqb_refl. reflexivity.
      * subst n. destruct ((Z.of_nat r =? row ui) && (-1 =? col ui));
          [reflexivity|].
        cbn [Z.eqb fst snd]. now rewrite andb_false_r.
    + destruct (_ && _); apply app_nil_r.
Qed.

Lemma last_blank_ui_ok (r c : Z) :
  game_ok (ui_game (last_blank_ui r c)) (row_of <$> last_blank) (row_of <$> last_blank).
Proof.
  exists (seq 1 9), 10%nat, (seq 11 9).
  apply (started_game_at last_blank); reflexivity.
Defined.

(** On the board whose first row ends in a blank, a click left of the
    first row: with the first cell selected the selection becomes
    [(0, -1)] and no cursor is drawn; with [(0, -1)] selected the
    selection is dropped. Left of the second row, which ends in 8, the
    selection stays on the first cell and its cursor is drawn. *)
Lemma click_left_margin_witness :
  (exists ui',
     cell_clicked 5 30 (last_blank_ui 0 0) = (Ok tt, ui') /\
     (row ui', col ui') = (0, -1) /\
     filter (has_tag "cursor") (items (canvas ui')) = []) /\
  (exists ui',
     cell_clicked 5 30 (last_blank_ui 0 (-1)) = (Ok tt, ui') /\
     (row ui', col ui') = (-1, -1) /\
     filter (has_tag "cursor") (items (canvas ui')) = []) /\
  (exists ui',
     cell_clicked 5 80 (last_blank_ui 0 0) = (Ok tt, ui') /\
     (row ui', col ui') = (0, 0) /\
     filter (has_tag "cursor") (items (canvas ui')) = [cursor_of 0 0]).
Proof.
  split; [|split].
  - destruct (click_left_margin (last_blank_ui 0 0) (row_of <$> last_blank)
                (row_of <$> last_blank) 5 30 0%nat 0)
      as (ui' & E & _ & Hsel & _ & Hcur & _);
      [apply last_blank_ui_ok | lia | unfold MARGIN, SIDE; lia
      | unfold MARGIN, SIDE; lia | reflexivity |].
    exists ui'. split; [exact E|]. split; [exact Hsel|].
    apply Hcur. now right.
  - destruct (click_left_margin (last_blank_ui 0 (-1)) (row_of <$> last_blank)
                (row_of <$> last_blank) 5 30 0%nat 0)
      as (ui' & E & _ & Hsel & _ & Hcur & _);
      [apply last_blank_ui_ok | lia | unfold MARGIN, SIDE; lia
      | unfold MARGIN, SIDE; lia | reflexivity |].
    exists ui'. split; [exact E|]. split; [exact Hsel|].
    apply Hcur. left. now split.
  - destruct (click_left_margin (last_blank_ui 0 0) (row_of <$> last_blank)
                (row_of <$> last_blank) 5 80 1%nat 8)
      as (ui' & E & _ & Hsel & Hcur & _);
      [apply last_blank_ui_ok | lia | unfold MARGIN, SIDE; lia
      | unfold MARGIN, SIDE; lia | reflexivity |].
    exists ui'. split; [exact E|]. split; [exact Hsel|].
    rewrite Hcur. injection Hsel as -> ->. reflexivity.
Defined.

(** ** Clearing the answers, and building the user interface *)

Lemma clear_answers_run
    (list_eq : loc -> loc -> M Heap bool) (ui : UI)
    (rs0 : list loc) (b0 : list (list Z)) :
  board_at (heap (ui_game ui)) (start_puzzle (game (ui_game ui))) rs0 b0 ->
  is_9x9 b0 -> in_range b0 ->
  exists w' p rs,
    game_at w' rs0 p rs b0 b0 /\
    clear_answers list_eq ui =
    (Ok tt,
     {| ui_game := w'; row := row ui; col := col ui;
        canvas :=
          {| items :=
               filter (fun it => negb (has_tag "numbers" it))
                 (filter (fun it => negb (has_tag "victory" it))
                    (items (canvas ui)))
               ++ numbers b0 b0;
             focus := focus (canvas ui) |} |}).
Proof.
  intros Hs H9 Hrange.
  destruct (start_game_at (ui_game ui) rs0 b0 Hs H9 Hrange) as (w' & E & Hgame).
  exists w'. eexists _, _. split; [exact Hgame|].
  unfold clear_answers.
  erewrite bind_ok by (unfold on_game; rewrite E; reflexivity).
  erewrite bind_ok by reflexivity.
  destruct Hgame as (Hs' & _ & _ & Hp' & Hb' & H9' & _).
  erewrite (draw_puzzle_ok list_eq _ rs0 b0 _ _ b0); try eassumption.
  reflexivity.
Qed.

(** X19. Clearing the answers, with the start board in place: the working
    board is the start board again in lists of its own, whatever had been
    typed; [game_over] is false; the selection stays; and the numbers on
    the canvas are the givens, all black. *)
Theorem clear_answers_resets
    (list_eq : loc -> loc -> M Heap bool) (ui : UI)
    (rs0 : list loc) (b0 : list (list Z)) :
  board_at (heap (ui_game ui)) (start_puzzle (game (ui_game ui))) rs0 b0 ->
  is_9x9 b0 -> in_range b0 ->
  exists ui',
    clear_answers list_eq ui = (Ok tt, ui') /\
    game_ok (ui_game ui') b0 b0 /\
    row ui' = row ui /\ col ui' = col ui /\
    forall it,
      it ∈ filter (has_tag "numbers") (items (canvas ui')) <->
      exists (i j : nat) (n : Z),
        (i < 9)%nat /\ (j < 9)%nat /\ at_ b0 i j = Some n /\ n <> 0 /\
        it = text (MARGIN + Z.of_nat j * SIDE + SIDE / 2)
                  (MARGIN + Z.of_nat i * SIDE + SIDE / 2)
                  (VInt n) "numbers" "black".
Proof.
  intros Hs H9 Hrange.
  destruct (clear_answers_run list_eq ui rs0 b0 Hs H9 Hrange)
    as (w' & p & rs & Hgame & E).
  eexists. split; [exact E|].
  cbn [ui_game row col canvas items].
  split; [now exists rs0, p, rs|]. split; [reflexivity|]. split; [reflexivity|].
  intros it.
  rewrite filter_app, deleted_gone, numbers_tagged. simpl.
  rewrite elem_of_numbers. split.
  - intros (i & j & n & n0 & Hi & Hj & Hn & Hn0 & Hnz & ->).
    rewrite Hn in Hn0. injection Hn0 as <-.
    exists i, j, n. unfold number_of. now rewrite Z.eqb_refl.
  - intros (i & j & n & Hi & Hj & Hn & Hnz & ->).
    exists i, j, n, n. unfold number_of. now rewrite Z.eqb_refl.
Qed.

Lemma clear_answers_resets_witness :
  exists ui',
    clear_answers no_list_eq one_blank_ui = (Ok tt, ui') /\
    game_ok (ui_game ui') (row_of <$> one_blank) (row_of <$> one_blank) /\
    row ui' = row one_blank_ui /\ col ui' = col one_blank_ui /\
    forall it,
      it ∈ filter (has_tag "numbers") (items (canvas ui')) <->
      exists (i j : nat) (n : Z),
        (i < 9)%nat /\ (j < 9)%nat /\
        at_ (row_of <$> one_blank) i j = Some n /\ n <> 0 /\
        it = text (MARGIN + Z.of_nat j * SIDE + SIDE / 2)
                  (MARGIN + Z.of_nat i * SIDE + SIDE / 2)
                  (VInt n) "numbers" "black".
Proof.
  destruct (started_game_at one_blank eq_refl eq_refl)
    as (Hs & H9 & Hrange & _).
  exact (clear_answers_resets no_list_eq one_blank_ui (seq 1 9)
           (row_of <$> one_blank) Hs H9 Hrange).
Defined.

Lemma draw_grid_ok (ui : UI) :
  draw_grid ui = (Ok tt, with_items (items (canvas ui) ++ grid_lines) ui).
Proof.
  unfold draw_grid, grid_lines.
  assert (ui = with_items (items (canvas ui)) ui) as E
    by now destruct ui as [? ? ? []].
  rewrite E at 1.
  apply (for_items (xrange 10) _
           (fun i : Z =>
              let color := if i mod 3 =? 0 then "blue"%string else "gray"%string in
              [line (MARGIN + i * SIDE) MARGIN (MARGIN + i * SIDE)
                 (HEIGHT - MARGIN) color;
               line MARGIN (MARGIN + i * SIDE) (WIDTH - MARGIN)
                 (MARGIN + i * SIDE) color]) ui).
  intros i its _. cbv zeta. unfold bind, canvas_create, with_items, set_canvas.
  cbn [ui_game row col canvas items focus].
  now rewrite <- app_assoc.
Qed.

Lemma grid_lines_kept :
  filter (fun it => negb (has_tag "numbers" it)) grid_lines = grid_lines.
Proof. vm_compute. reflexivity. Qed.

Lemma init_ui_run
    (list_eq : loc -> loc -> M Heap bool) (w : World)
    (rs0 : list loc) (p : loc) (rs : list loc) (b0 b : list (list Z)) :
  game_at w rs0 p rs b0 b ->
  init_ui list_eq w =
  (Ok tt,
   {| ui_game := w; row := 0; col := 0;
      canvas := {| items := grid_lines ++ numbers b0 b; focus := false |} |}).
Proof.
  intros (Hs & H0 & _ & Hp & Hb & H9 & _).
  unfold init_ui.
  erewrite bind_ok by apply draw_grid_ok.
  erewrite (draw_puzzle_ok list_eq _ rs0 b0 p rs b); try eassumption.
  cbn [with_items set_canvas ui_game row col canvas items focus app].
  now rewrite grid_lines_kept.
Qed.

(** X20. The user interface is built with row 0 and column 0 as the
    selection, though no cursor is drawn: on the canvas are the twenty grid
    lines and the numbers. So a digit typed before the selection changes
    goes into the top left cell of the working board, given or not. *)
Theorem first_key_writes_corner
    (list_eq : loc -> loc -> M Heap bool) (w : World)
    (b0 b : list (list Z)) (d : ascii) :
  game_ok w b0 b ->
  isdigit d = true ->
  exists ui,
    init_ui list_eq w = (Ok tt, ui) /\
    ui_game ui = w /\ row ui = 0 /\ col ui = 0 /\
    items (canvas ui) = grid_lines ++ numbers b0 b /\
    filter (has_tag "cursor") (items (canvas ui)) = [] /\
    game_ok (ui_game (snd (on_key list_eq [d] ui))) b0
      (write b 0 0 (digit_value d)).
Proof.
  intros (rs0 & p & rs & Hgame) Hd.
  eexists. split; [now apply (init_ui_run list_eq w rs0 p rs b0 b)|].
  cbn [ui_game row col canvas items].
  repeat (split; [reflexivity|]). split.
  - rewrite filter_app, numbers_not_cursor. vm_compute. reflexivity.
  - match goal with |- context [on_key list_eq [d] ?u] => set (ui := u) end.
    destruct (key_write_run list_eq ui rs0 p rs b0 b 0 0 d Hgame eq_refl eq_refl)
      as (w' & Hgame' & E); [lia | lia | exact Hd |].
    rewrite E. now exists rs0, p, rs.
Qed.

Lemma first_key_writes_corner_witness :
  exists ui,
    init_ui no_list_eq solved_started = (Ok tt, ui) /\
    ui_game ui = solved_started /\ row ui = 0 /\ col ui = 0 /\
    items (canvas ui) =
      grid_lines ++ numbers (row_of <$> solved) (row_of <$> solved) /\
    filter (has_tag "cursor") (items (canvas ui)) = [] /\
    game_ok (ui_game (snd (on_key no_list_eq [("1")%char] ui)))
      (row_of <$> solved)
      (write (row_of <$> solved) 0 0 (digit_value "1")).
Proof.
  apply (first_key_writes_corner no_list_eq solved_started (row_of <$> solved)
           (row_of <$> solved) ("1")%char);
    [apply solved_ui_ok | reflexivity].
Defined.

(** ** What every session keeps *)

Section Invariant.
Variable list_eq : loc -> loc -> M Heap bool.

(** The part of a click that looks the cell up and may select it. *)
Lemma click_lookup (ui : UI) rs0 p rs b0 b (R C : Z) :
  game_at (ui_game ui) rs0 p rs b0 b ->
  row ui <= 8 -> col ui <= 8 ->
  exists res ui',
    (p <- on_game get_puzzle ;;
     pr <- on_game (on_heap (getitem p R)) ;;
     pr <- as_list pr ;;
     v <- on_game (on_heap (getitem pr C)) ;;
     if is_zero v then set_cursor C R else ret tt) ui = (res, ui') /\
    ui_game ui' = ui_game ui /\ row ui' <= 8 /\ col ui' <= 8.
Proof.
  intros (_ & _ & _ & Hp & [Hpl Hrows] & [Hlen Hlens] & _) Hrow Hcol.
  pose proof (Forall2_length _ _ _ Hrows) as Hrslen.
  erewrite bind_ok by (apply on_game_run, get_puzzle_ok, Hp).
  destruct (index 9 R) as [r|] eqn:Hr.
  - pose proof (index_lt _ _ _ Hr) as HR.
    pose proof (index_Some _ _ _ Hr) as Hr9.
    destruct (lookup_lt_is_Some_2 rs r) as [l Hl]; [lia|].
    destruct (Forall2_lookup_l _ _ _ _ _ Hrows Hl) as (rw & Hrw & Hcells).
    assert (length rw = 9%nat) as Hrwlen.
    { rewrite Forall_forall in Hlens. eapply Hlens, list_elem_of_lookup_2, Hrw. }
    erewrite bind_ok by
      (erewrite (on_game_getitem_index _ p) by exact Hpl;
       rewrite length_fmap, Hrslen, Hlen, Hr, list_lookup_fmap, Hl; reflexivity).
    erewrite bind_ok by reflexivity.
    destruct (index 9 C) as [c|] eqn:Hc.
    + pose proof (index_lt _ _ _ Hc) as HC.
      pose proof (index_Some _ _ _ Hc) as Hc9.
      destruct (lookup_lt_is_Some_2 rw c) as [n Hn]; [lia|].
      erewrite bind_ok by
        (erewrite (on_game_getitem_index _ l) by exact Hcells;
         rewrite length_fmap, Hrwlen, Hc, list_lookup_fmap, Hn; reflexivity).
      cbn [is_zero]. destruct (n =? 0).
      * eexists _, _. split; [reflexivity|].
        cbn [ui_game row col]. repeat split; lia.
      * eexists _, _. split; [reflexivity|]. auto.
    + eexists _, _. split; [|auto].
      apply bind_raise.
      erewrite (on_game_getitem_index _ l) by exact Hcells.
      now rewrite length_fmap, Hrwlen, Hc.
  - eexists _, _. split; [|auto].
    apply bind_raise.
    erewrite (on_game_getitem_index _ p) by exact Hpl.
    now rewrite length_fmap, Hrslen, Hlen, Hr.
Qed.

Lemma click_keeps (ui : UI) rs0 p rs b0 b (x y : Z) :
  game_at (ui_game ui) rs0 p rs b0 b ->
  row ui <= 8 -> col ui <= 8 ->
  ui_game (snd (cell_clicked x y ui)) = ui_game ui /\
  row (snd (cell_clicked x y ui)) <= 8 /\
  col (snd (cell_clicked x y ui)) <= 8.
Proof.
  intros Hgame Hrow Hcol.
  pose proof Hgame as (_ & _ & _ & _ & _ & _ & _ & _ & _ & Hover).
  unfold cell_clicked.
  erewrite bind_ok by (apply on_game_run, get_game_over_ok, Hover).
  cbv beta iota zeta. fold (inside x y).
  rewrite (bind_ok _ _ _ _ _ (focus_step ui x y)).
  erewrite bind_ok by reflexivity.
  erewrite bind_ok by reflexivity.
  cbn [row col clicked].
  destruct (((y - MARGIN) / SIDE =? row ui) && ((x - MARGIN) / SIDE =? col ui)).
  - erewrite bind_ok by reflexivity.
    rewrite draw_cursor_ok. simpl. repeat split; lia.
  - destruct (click_lookup (clicked ui x y) rs0 p rs b0 b
                ((y - MARGIN) / SIDE) ((x - MARGIN) / SIDE) Hgame Hrow Hcol)
      as (res & ui' & E & Hg & Hr & Hc).
    destruct res as [[]|e].
    + rewrite (bind_ok _ _ _ _ _ E), draw_cursor_ok.
      cbn [snd with_items set_canvas ui_game row col]. auto.
    + rewrite (bind_raise _ _ _ _ _ E). cbn [snd]. auto.
Qed.

Lemma key_keeps (ui : UI) rs0 p rs b0 b (char : option ascii) :
  game_at (ui_game ui) rs0 p rs b0 b ->
  row ui <= 8 -> col ui <= 8 ->
  exists w' b',
    ui_game (snd (on_key list_eq (char_of char) ui)) = w' /\
    game_at w' rs0 p rs b0 b' /\
    row (snd (on_key list_eq (char_of char) ui)) <= 8 /\
    col (snd (on_key list_eq (char_of char) ui)) <= 8.
Proof.
  intros Hgame Hrow Hcol.
  pose proof Hgame as (_ & _ & _ & _ & _ & _ & _ & _ & _ & Hover).
  assert (forall ch, on_key list_eq ch ui = (Ok tt, ui) \/
                     on_key list_eq ch ui = (Raise ValueError, ui) ->
          exists w' b',
            ui_game (snd (on_key list_eq ch ui)) = w' /\
            game_at w' rs0 p rs b0 b' /\
            row (snd (on_key list_eq ch ui)) <= 8 /\
            col (snd (on_key list_eq ch ui)) <= 8) as Hsame.
  { intros ch [E|E]; rewrite E; exists (ui_game ui), b; auto. }
  destruct (Z.lt_ge_cases (row ui) 0) as [Hr|Hr].
  { apply Hsame. left.
    apply (key_pressed_dropped _ _ _ _ _ _ false Hover). auto. }
  destruct (Z.lt_ge_cases (col ui) 0) as [Hc|Hc].
  { apply Hsame. left.
    apply (key_pressed_dropped _ _ _ _ _ _ false Hover). auto. }
  destruct char as [d|]; cbn [char_of].
  - destruct (isdigit d) eqn:Hd.
    + destruct (key_write_run list_eq ui rs0 p rs b0 b
                  (Z.to_nat (row ui)) (Z.to_nat (col ui)) d Hgame)
        as (w' & Hgame' & E); [lia | lia | lia | lia | exact Hd |].
      rewrite E. exists w', (write b (Z.to_nat (row ui)) (Z.to_nat (col ui))
                               (digit_value d)).
      cbn [snd ui_game row col].
      split; [reflexivity|]. split; [exact Hgame'|]. split; lia.
    + apply Hsame. left.
      apply (key_pressed_dropped _ _ _ _ _ _ false Hover).
      right. right. right. now apply no_digit_not_contained.
  - apply Hsame. right. unfold on_key, key_pressed.
    erewrite bind_ok by (apply on_game_run, get_game_over_ok, Hover).
    cbv beta iota.
    erewrite bind_ok by reflexivity.
    erewrite bind_ok by reflexivity.
    destruct (Z.leb_spec 0 (row ui)); [|lia].
    destruct (Z.leb_spec 0 (col ui)); [|lia].
    reflexivity.
Qed.

Lemma handle_keeps (e : event) (ui : UI) rs0 (b0 b : list (list Z)) p rs :
  game_at (ui_game ui) rs0 p rs b0 b ->
  row ui <= 8 -> col ui <= 8 ->
  exists p' rs' b',
    game_at (ui_game (snd (handle list_eq e ui))) rs0 p' rs' b0 b' /\
    row (snd (handle list_eq e ui)) <= 8 /\
    col (snd (handle list_eq e ui)) <= 8.
Proof.
  intros Hgame Hrow Hcol. destruct e as [x y|char|]; cbn [handle].
  - destruct (click_keeps ui rs0 p rs b0 b x y Hgame Hrow Hcol) as (-> & Hr & Hc).
    now exists p, rs, b.
  - destruct (key_keeps ui rs0 p rs b0 b char Hgame Hrow Hcol)
      as (w' & b' & <- & Hgame' & Hr & Hc).
    now exists p, rs, b'.
  - destruct Hgame as (Hs & H9 & Hrange & _).
    destruct (clear_answers_run list_eq ui rs0 b0 Hs H9 Hrange)
      as (w' & p' & rs' & Hgame' & E).
    rewrite E. cbn [snd ui_game row col]. now exists p', rs', b0.
Qed.

Lemma run_keeps (es : list event) : forall (ui : UI) rs0 (b0 b : list (list Z)) p rs,
  game_at (ui_game ui) rs0 p rs b0 b ->
  row ui <= 8 -> col ui <= 8 ->
  exists p' rs' b',
    game_at (ui_game (run list_eq es ui)) rs0 p' rs' b0 b' /\
    row (run list_eq es ui) <= 8 /\ col (run list_eq es ui) <= 8.
Proof.
  induction es as [|e es IH]; intros ui rs0 b0 b p rs Hgame Hrow Hcol.
  - now exists p, rs, b.
  - destruct (handle_keeps e ui rs0 b0 b p rs Hgame Hrow Hcol)
      as (p' & rs' & b' & Hgame' & Hr & Hc).
    exact (IH _ rs0 b0 b' p' rs' Hgame' Hr Hc).
Qed.
End Invariant.

(** X21. Whatever events follow, a game in play stays in play: the start
    board is still the matrix it was, in the lists it was in; the working
    board is a 9x9 matrix of 0..9 in ten lists of its own; [game_over] is
    false; and the selected row and column are at most 8, so the key
    handler never indexes beyond the board. *)
Theorem play_keeps_game
    (list_eq : loc -> loc -> M Heap bool) (ui : UI) (b0 b : list (list Z))
    (es : list event) :
  game_ok (ui_game ui) b0 b ->
  row ui <= 8 -> col ui <= 8 ->
  exists b',
    game_ok (ui_game (run list_eq es ui)) b0 b' /\
    row (run list_eq es ui) <= 8 /\ col (run list_eq es ui) <= 8.
Proof.
  intros (rs0 & p & rs & Hgame) Hrow Hcol.
  destruct (run_keeps list_eq es ui rs0 b0 b p rs Hgame Hrow Hcol)
    as (p' & rs' & b' & Hgame' & Hr & Hc).
  exists b'. split; [now exists rs0, p', rs'|]. now split.
Qed.

Lemma play_keeps_game_witness :
  let es := [Click 30 30; Key (Some "5"%char); Click 480 480; Key None;
             ClearAnswers; Key (Some "x"%char)] in
  exists b',
    game_ok (ui_game (run no_list_eq es one_blank_ui)) (row_of <$> one_blank) b' /\
    row (run no_list_eq es one_blank_ui) <= 8 /\
    col (run no_list_eq es one_blank_ui) <= 8.
Proof.
  intros es.
  apply (play_keeps_game no_list_eq one_blank_ui (row_of <$> one_blank)
           (row_of <$> one_blank) es);
    [apply one_blank_ui_ok | discriminate | discriminate].
Defined.

Lemma load_good (board_file : list str) (w : World) :
  load board_file = Ok w ->
  forallb good_line board_file = true /\ length board_file = 9%nat.
Proof.
  unfold load, init, SudokuBoard. intros Hload.
  destruct (forallb good_line board_file) eqn:Hg.
  - destruct (decide (length board_file = 9%nat)) as [Hn|Hn]; [now split|].
    rewrite (bind_raise _ _ _ _ _ (create_board_bad_count [] board_file Hg Hn))
      in Hload.
    discriminate.
  - destruct (create_board_bad_line [] board_file Hg) as (msg & h' & E).
    rewrite (bind_raise _ _ _ _ _ E) in Hload. discriminate.
Qed.

(** X22. From the board file on. When the file loads, the game starts and
    the user interface is built without an exception, and after any events
    at all the start board is the matrix of the file's digits, the working
    board is a 9x9 matrix of 0..9 in lists of its own, and [game_over] is
    false: no session ends in a win. *)
Theorem session_keeps_board
    (list_eq : loc -> loc -> M Heap bool) (board_file : list str)
    (es : list event) (w : World) :
  load board_file = Ok w ->
  exists ui b,
    session list_eq board_file es = Ok ui /\
    game_ok (ui_game ui) (row_of <$> board_file) b /\
    game_over (game (ui_game ui)) = Some false /\
    row ui <= 8 /\ col ui <= 8.
Proof.
  intros Hload.
  destruct (load_good board_file w Hload) as [Hg Hn].
  destruct (load_start board_file Hg Hn) as (w0 & Hload0 & Hstart).
  pose proof (started_game_at board_file Hg Hn) as Hgame.
  unfold session. rewrite Hload0, Hstart.
  rewrite (init_ui_run list_eq _ _ _ _ _ _ Hgame).
  match goal with |- context [run list_eq es ?u] => set (ui0 := u) end.
  destruct (run_keeps list_eq es ui0 _ _ _ _ _ Hgame) as
    (p' & rs' & b' & Hgame' & Hr & Hc); [discriminate | discriminate |].
  exists (run list_eq es ui0), b'.
  split; [reflexivity|]. split; [exists (seq 1 9), p', rs'; exact Hgame'|].
  split; [|now split].
  now destruct Hgame' as (_ & _ & _ & _ & _ & _ & _ & _ & _ & Hover).
Qed.

Lemma session_keeps_board_witness :
  let es := [Click 30 30; Key (Some "5"%char); ClearAnswers] in
  exists ui b,
    session no_list_eq one_blank es = Ok ui /\
    game_ok (ui_game ui) (row_of <$> one_blank) b /\
    game_over (game (ui_game ui)) = Some false /\
    row ui <= 8 /\ col ui <= 8.
Proof.
  intros es.
  apply (session_keeps_board no_list_eq one_blank es
           {| heap := built [] (row_of <$> one_blank);
              game := {| start_puzzle := 0%nat; puzzle := None;
                         game_over := None |} |}).
  vm_compute. reflexivity.
Defined.
